(** * llvm_trace: the PANDA plugin that captures an LLVM trace

    A shallow embedding of [qemu/panda_plugins/llvm_trace/llvm_trace.cpp].
    The plugin owns two output streams, [funclog] (the ledger of executed
    LLVM functions, plus the taint lines of the user-mode syscall callbacks)
    and [memlog] (the binary log of dynamic values), and it drives the
    dynamic value buffer of the instrumentation pass around the execution
    of every translation block.

    The callbacks are written in a small state-and-failure monad over the
    globals of the plugin, so that each definition can be read next to the
    C function it embeds. *)

From Stdlib Require Import ZArith List Strings.String Strings.Ascii Strings.Byte Bool Lia.
From Stdlib Require Import DecimalString.
Import ListNotations.

Local Open Scope string_scope.
Local Open Scope Z_scope.

(** ** C integer conversions *)

Module CInt.

(** Value of [z] after conversion to a signed integer type of [w] bits. *)
Definition to_signed (w : Z) (z : Z) : Z :=
  (z + 2 ^ (w - 1)) mod 2 ^ w - 2 ^ (w - 1).

(** Value of [z] after conversion to an unsigned integer type of [w] bits. *)
Definition to_unsigned (w : Z) (z : Z) : Z := z mod 2 ^ w.

(** [(int) z] *)
Definition to_int : Z -> Z := to_signed 32.
(** [(unsigned int) z] *)
Definition to_uint : Z -> Z := to_unsigned 32.
(** [(uintptr_t) z] and [(unsigned long) z] on the LP64 host. *)
Definition to_ulong : Z -> Z := to_unsigned 64.
(** [(long) z] on the LP64 host. *)
Definition to_long : Z -> Z := to_signed 64.

End CInt.

(** ** C strings *)

Module CString.

(** The line terminator written by [fprintf] for the escape [\n]. *)
Definition nl : string := String (ascii_of_nat 10) EmptyString.

Definition code (c : ascii) : Z := Z.of_nat (nat_of_ascii c).

(** [strncmp s1 s2 n]: compares at most [n] characters; the end of a
    string counts as the character 0. *)
Fixpoint strncmp (s1 s2 : string) (n : nat) : Z :=
  match n with
  | O => 0
  | S n' =>
      match s1, s2 with
      | EmptyString, EmptyString => 0
      | EmptyString, String c2 _ => 0 - code c2
      | String c1 _, EmptyString => code c1 - 0
      | String c1 r1, String c2 r2 =>
          if Ascii.eqb c1 c2 then strncmp r1 r2 n' else code c1 - code c2
      end
  end.

(** [strstr haystack needle]: offset of the first occurrence of [needle],
    [None] for the null pointer. *)
Definition strstr (haystack needle : string) : option nat :=
  index 0 needle haystack.

(** The decimal numeral of an integer, with a minus sign when negative. *)
Definition decimal (z : Z) : string := NilZero.string_of_int (Z.to_int z).

(** [%ld]: the argument is read as a [long] and printed in decimal. *)
Definition fmt_ld (z : Z) : string := decimal (CInt.to_long z).

(** A string literal of the source, free of the character 0. *)
Fixpoint nul_free (s : string) : bool :=
  match s with
  | EmptyString => true
  | String c r => negb (Ascii.eqb c zero) && nul_free r
  end.

End CString.

(** ** Data model *)

(** Modelled from the spec: the enumeration [DynValEntryType] of
    [panda_memlog.h], which is not part of the plugin's file; the kinds are
    those the data model of the trace names. *)
Inductive DynValEntryType : Type :=
| Address
| Value
| BranchTarget
| ExceptionMarker.

(** Modelled from the spec: the enumeration [LogOp] of [panda_memlog.h]. *)
Inductive LogOp : Type :=
| Load
| Store
| CompareAndFork.

(** Modelled from the spec: one record of the value log (the [DynValEntry]
    of [panda_memlog.h]); the payload is a pointer-sized word. *)
Record LoggedEvent : Type := mkEvent {
  entryKind : DynValEntryType;
  operation : LogOp;
  payload : Z
}.

(** Modelled from the spec: the binary layout of a record, which
    [panda_memlog.h] fixes and the plugin never inspects. Records are
    fixed-size and not empty; of the exception marker the trace format fixes
    the entry kind only, so the other two fields written by [log_exception]
    belong to the layout. *)
Class TraceFormat : Type := {
  record_width : nat;
  encode : LoggedEvent -> list byte;
  encode_width : forall e, List.length (encode e) = record_width;
  record_width_pos : (0 < record_width)%nat;
  marker_operation : LogOp;
  marker_payload : Z
}.

(** Modelled from the spec: the [DynValBuffer] of [panda_memlog.h], a
    region of memory allocated once ([start], whose length is the capacity)
    and a write offset ([cur_size]). *)
Record DynValBuffer : Type := mkBuffer {
  start : list byte;
  cur_size : nat
}.

Definition capacity (b : DynValBuffer) : nat := List.length (start b).

(** The bytes between the base of the buffer and its cursor. *)
Definition pending (b : DynValBuffer) : list byte :=
  firstn (cur_size b) (start b).

(** A [FILE *]: whether the stream is open, and what each write call has
    appended to it so far, oldest first. *)
Record FILE (A : Type) : Type := mkFILE {
  is_open : bool;
  writes : list A
}.
Arguments mkFILE {A} _ _.
Arguments is_open {A} _.
Arguments writes {A} _.

(** The bytes of a binary stream. *)
Definition contents (f : FILE (list byte)) : list byte := List.concat (writes f).

(** The text of a text stream. *)
Definition text (f : FILE string) : string :=
  fold_right String.append EmptyString (writes f).

(** The globals of the plugin: the two streams, the buffer reached through
    [PIFP->PIV->getDynvalBuffer()], the two descriptors of the syscall
    callbacks, the standard output of [printf], and whether the pass
    registry of LLVM knows the instrumentation pass. *)
Record plugin_state : Type := mkState {
  funclog : FILE string;
  memlog : FILE (list byte);
  dynval_buffer : DynValBuffer;
  infd : Z;
  outfd : Z;
  stdout : list string;
  PandaInstr_registered : bool
}.

(** ** The monad of the callbacks *)

Definition M (A : Type) : Type := plugin_state -> option (A * plugin_state).

Definition ret {A} (a : A) : M A := fun s => Some (a, s).

Definition bind {A B} (m : M A) (k : A -> M B) : M B :=
  fun s => match m s with
           | Some (a, s') => k a s'
           | None => None
           end.

(** A fatal condition: the process does not continue. *)
Definition abort {A} : M A := fun _ => None.

Definition get : M plugin_state := fun s => Some (s, s).
Definition put (s : plugin_state) : M unit := fun _ => Some (tt, s).

Declare Scope monad_scope.
Delimit Scope monad_scope with monad.
Notation "x <- m ;; k" := (bind m (fun x => k))
  (at level 61, m at next level, right associativity) : monad_scope.
Notation "m ;; k" := (bind m (fun _ => k))
  (at level 61, right associativity) : monad_scope.

Local Open Scope monad_scope.

(** An [if] without [else]. *)
Definition when (c : bool) (m : M unit) : M unit :=
  if c then m else ret tt.

(** The final state of a computation, when it returns. *)
Definition exec {A} (m : M A) (s : plugin_state) : option plugin_state :=
  match m s with
  | Some (_, s') => Some s'
  | None => None
  end.

(** *** Streams *)

Definition append_write {A} (x : A) (f : FILE A) : FILE A :=
  mkFILE (is_open f) (writes f ++ [x]).

Definition set_funclog (f : FILE string) (s : plugin_state) : plugin_state :=
  mkState f (memlog s) (dynval_buffer s) (infd s) (outfd s) (stdout s)
          (PandaInstr_registered s).

Definition set_memlog (f : FILE (list byte)) (s : plugin_state) : plugin_state :=
  mkState (funclog s) f (dynval_buffer s) (infd s) (outfd s) (stdout s)
          (PandaInstr_registered s).

Definition set_dynval_buffer (b : DynValBuffer) (s : plugin_state) : plugin_state :=
  mkState (funclog s) (memlog s) b (infd s) (outfd s) (stdout s)
          (PandaInstr_registered s).

Definition set_infd (fd : Z) (s : plugin_state) : plugin_state :=
  mkState (funclog s) (memlog s) (dynval_buffer s) fd (outfd s) (stdout s)
          (PandaInstr_registered s).

Definition set_outfd (fd : Z) (s : plugin_state) : plugin_state :=
  mkState (funclog s) (memlog s) (dynval_buffer s) (infd s) fd (stdout s)
          (PandaInstr_registered s).

Definition set_stdout (o : list string) (s : plugin_state) : plugin_state :=
  mkState (funclog s) (memlog s) (dynval_buffer s) (infd s) (outfd s) o
          (PandaInstr_registered s).

Definition set_registered (r : bool) (s : plugin_state) : plugin_state :=
  mkState (funclog s) (memlog s) (dynval_buffer s) (infd s) (outfd s)
          (stdout s) r.

(** [fprintf(funclog, ...)] with the formatted text [line]; a stream that is
    not open cannot be written. *)
Definition fprintf_funclog (line : string) : M unit :=
  fun s => if is_open (funclog s)
           then Some (tt, set_funclog (append_write line (funclog s)) s)
           else None.

(** [printf(...)] with the formatted text [line]. *)
Definition printf (line : string) : M unit :=
  fun s => Some (tt, set_stdout (stdout s ++ [line]) s).

(** [fwrite(ptr, size, nmemb, memlog)]: [size * nmemb] bytes from [ptr]. *)
Definition fwrite_memlog (ptr : list byte) (size nmemb : nat) : M unit :=
  fun s => if is_open (memlog s)
           then Some (tt, set_memlog
                            (append_write (firstn (size * nmemb) ptr) (memlog s)) s)
           else None.

(** [assert(memlog)] *)
Definition assert_memlog : M unit :=
  fun s => if is_open (memlog s) then Some (tt, s) else None.

(** [fclose(funclog)] *)
Definition fclose_funclog : M unit :=
  fun s => if is_open (funclog s)
           then Some (tt, set_funclog (mkFILE false (writes (funclog s))) s)
           else None.

(** Modelled from the spec: [close_memlog] of [panda_memlog.c], which closes
    the value log at teardown. *)
Definition close_memlog : M unit :=
  fun s => if is_open (memlog s)
           then Some (tt, set_memlog (mkFILE false (writes (memlog s))) s)
           else None.

(** Modelled from the spec: [open_memlog] of [panda_memlog.c], which opens
    the value log at startup. *)
Definition open_memlog : M unit :=
  fun s => Some (tt, set_memlog (mkFILE true []) s).

(** [funclog = fopen("/tmp/llvm-functions.log", "w")] *)
Definition fopen_funclog : M unit :=
  fun s => Some (tt, set_funclog (mkFILE true []) s).

(** [PIFP->PIV->getDynvalBuffer()] *)
Definition getDynvalBuffer : M DynValBuffer :=
  fun s => Some (dynval_buffer s, s).

(** *** The dynamic value buffer *)

(** Modelled from the spec: [clear_dynval_buffer] of [panda_memlog.c], the
    reset of the buffer: the cursor returns to 0 and the storage is kept. *)
Definition clear_buffer (b : DynValBuffer) : DynValBuffer :=
  mkBuffer (start b) 0.

Definition clear_dynval_buffer : M unit :=
  fun s => Some (tt, set_dynval_buffer (clear_buffer (dynval_buffer s)) s).

(** Modelled from the spec: [write_dynval_buffer] of [panda_memlog.c], the
    append of one encoded record at the cursor, which then advances by the
    width of the record; a record that does not fit in the capacity is
    fatal. *)
Definition write_buffer (bytes : list byte) (b : DynValBuffer)
  : option DynValBuffer :=
  let n := List.length bytes in
  if (cur_size b + n <=? capacity b)%nat
  then Some (mkBuffer (firstn (cur_size b) (start b) ++ bytes
                         ++ skipn (cur_size b + n) (start b))
                      (cur_size b + n))
  else None.

Definition write_dynval_buffer (bytes : list byte) : M unit :=
  fun s => match write_buffer bytes (dynval_buffer s) with
           | Some b => Some (tt, set_dynval_buffer b s)
           | None => None
           end.

(** ** A concrete trace format and a concrete state

    The development is generic in the layout of a record. To evaluate the
    callbacks, [sample_format] lays a record out in ten bytes: the entry
    kind, the operation, and the payload as eight bytes, least significant
    first. *)

Definition byte_of_Z (z : Z) : byte :=
  match Byte.of_N (Z.to_N (z mod 256)) with
  | Some b => b
  | None => x00
  end.

Definition kind_tag (k : DynValEntryType) : byte :=
  match k with
  | Address => x00
  | Value => x01
  | BranchTarget => x02
  | ExceptionMarker => x03
  end.

Definition op_tag (op : LogOp) : byte :=
  match op with
  | Load => x00
  | Store => x01
  | CompareAndFork => x02
  end.

Definition sample_encode (e : LoggedEvent) : list byte :=
  [ kind_tag (entryKind e); op_tag (operation e);
    byte_of_Z (payload e);
    byte_of_Z (Z.shiftr (payload e) 8);
    byte_of_Z (Z.shiftr (payload e) 16);
    byte_of_Z (Z.shiftr (payload e) 24);
    byte_of_Z (Z.shiftr (payload e) 32);
    byte_of_Z (Z.shiftr (payload e) 40);
    byte_of_Z (Z.shiftr (payload e) 48);
    byte_of_Z (Z.shiftr (payload e) 56) ].

Definition sample_format : TraceFormat :=
  {| record_width := 10;
     encode := sample_encode;
     encode_width := fun _ => eq_refl;
     record_width_pos := Nat.lt_0_succ 9;
     marker_operation := Load;
     marker_payload := 0 |}.

(** A buffer of forty bytes, empty. *)
Definition sample_buffer : DynValBuffer := mkBuffer (repeat x00 40) 0.

(** The plugin after startup: both streams open and empty, no descriptor
    designated. *)
Definition sample_state : plugin_state :=
  mkState (mkFILE true []) (mkFILE true []) sample_buffer (-1) (-1) [] true.

(** Two dynamic values of a block: an address that is loaded from, and a
    value that is stored. *)
Definition sample_events : list LoggedEvent :=
  [ mkEvent Address Load 4096; mkEvent Value Store 7 ].

(** The plugin with one record left in the buffer. *)
Definition sample_pending_state : plugin_state :=
  mkState (mkFILE true []) (mkFILE true [])
          (mkBuffer (sample_encode (mkEvent Address Load 4096) ++ repeat x00 30) 10)
          (-1) (-1) [] true.

(** A table of file names by address, for the syscall callbacks. *)
Definition sample_string_at (p : Z) : string :=
  if p =? 4096 then "/etc/passwd"
  else if p =? 8192 then "/home/user/input.pdf"
  else "".

(** ** The plugin *)

(** Host constants of [<fcntl.h>] (Linux). *)
Definition O_RDONLY : Z := 0.
Definition O_WRONLY : Z := 1.
Definition O_RDWR : Z := 2.
Definition O_ACCMODE : Z := 3.

Section Plugin.

Context {fmt : TraceFormat}.

(** What the plugin takes from QEMU and does not define: the types of the
    CPU state and of a translation block, the name of the LLVM function of
    a block ([tcg-llvm.h]), the path translation of user mode ([path]),
    the C string stored at a host address, the flag translation table and
    [target_to_host_bitmask], and the syscall numbers of the target
    ([syscall_defs.h]). *)
Variable CPUState : Type.
Variable TranslationBlock : Type.
Variable tcg_llvm_get_func_name : TranslationBlock -> string.
Variable path : string -> string.
Variable string_at : Z -> string.
Variable bitmask_transtbl : Type.
Variable target_to_host_bitmask : Z -> bitmask_transtbl -> Z.
Variables TARGET_NR_read TARGET_NR_write TARGET_NR_open
          TARGET_NR_openat TARGET_NR_creat : Z.

(** *** The logging entry points of [panda_memlog] *)

(** Modelled from the spec: [log_dynval] of [panda_memlog.c], the entry
    point the instrumented code calls for each dynamic value: one record
    is encoded and appended to the buffer. *)
Definition log_dynval (k : DynValEntryType) (op : LogOp) (v : Z) : M unit :=
  write_dynval_buffer (encode (mkEvent k op v)).

(** The record of a diverted block. *)
Definition exception_event : LoggedEvent :=
  mkEvent ExceptionMarker marker_operation marker_payload.

(** Modelled from the spec: [log_exception] of [panda_memlog.c], the
    recorder of faults: one [ExceptionMarker] record is appended to the
    buffer. *)
Definition log_exception : M unit :=
  write_dynval_buffer (encode exception_event).

(** *** Memory callbacks (whole-system mode) *)

Definition phys_mem_write_callback (env : CPUState) (pc addr size buf : Z)
  : M Z := ret 0.

Definition phys_mem_read_callback (env : CPUState) (pc addr size buf : Z)
  : M Z := ret 0.

(** *** Block callbacks *)

Definition before_block_exec (env : CPUState) (tb : TranslationBlock)
  : M Z :=
  fprintf_funclog (tcg_llvm_get_func_name tb ++ CString.nl) ;;
  dynval_buffer <- getDynvalBuffer ;;
  when (0 <? cur_size dynval_buffer)%nat
    (* Buffer wasn't flushed before, have to flush it now *)
    (fwrite_memlog (start dynval_buffer) (cur_size dynval_buffer) 1) ;;
  clear_dynval_buffer ;;
  ret 0.

Definition after_block_exec (env : CPUState) (tb next_tb : TranslationBlock)
  : M Z :=
  (* flush dynlog to file *)
  assert_memlog ;;
  dynval_buffer <- getDynvalBuffer ;;
  fwrite_memlog (start dynval_buffer) (cur_size dynval_buffer) 1 ;;
  clear_dynval_buffer ;;
  ret 0.

Definition cb_cpu_restore_state (env : CPUState) (tb : TranslationBlock)
  : M Z :=
  printf ("EXCEPTION - logging" ++ CString.nl) ;;
  log_exception ;;
  ret 0.

(** *** Syscall callbacks (user mode) *)

(** The test of [user_open] on the opened file: not under [/etc], [/lib],
    [/proc], [/dev] or [/usr], and neither [openssl.cnf] nor [xpdfrc]. *)
Definition of_interest (file : string) : bool :=
  negb (CString.strncmp file "/etc" 4 =? 0)
  && negb (CString.strncmp file "/lib" 4 =? 0)
  && negb (CString.strncmp file "/proc" 5 =? 0)
  && negb (CString.strncmp file "/dev" 4 =? 0)
  && negb (CString.strncmp file "/usr" 4 =? 0)
  && match CString.strstr file "openssl.cnf" with None => true | Some _ => false end
  && match CString.strstr file "xpdfrc" with None => true | Some _ => false end.

Definition user_open (fcntl_flags_tbl : bitmask_transtbl) (ret_ : Z)
           (p : Z) (flagarg : Z) : M Z :=
  let file := path (string_at p) in
  let flags := CInt.to_uint (target_to_host_bitmask flagarg fcntl_flags_tbl) in
  when (0 <? ret_)
    (when (of_interest file)
       (printf ("open " ++ file ++ " for ") ;;
        when (Z.land flags (Z.lor O_RDONLY O_WRONLY) =? O_RDONLY)
          (printf ("read" ++ CString.nl) ;;
           fun s => Some (tt, set_infd (CInt.to_int ret_) s)) ;;
        when (negb (Z.land flags O_WRONLY =? 0))
          (printf ("write" ++ CString.nl) ;;
           fun s => Some (tt, set_outfd (CInt.to_int ret_) s)))) ;;
  ret 0.

Definition user_creat (ret_ : Z) (p : Z) : M Z :=
  let file := path (string_at p) in
  when (0 <? ret_)
    (printf ("open " ++ file ++ " for write" ++ CString.nl) ;;
     fun s => Some (tt, set_outfd (CInt.to_int ret_) s)) ;;
  ret 0.

(** The line of a taint record: [taint,<dir>,%ld,%ld\n] with the address
    of the buffer and the length returned by the syscall. *)
Definition taint_line (dir : string) (p ret_ : Z) : string :=
  "taint," ++ dir ++ "," ++ CString.fmt_ld (CInt.to_ulong p) ++ ","
    ++ CString.fmt_ld (CInt.to_ulong ret_) ++ CString.nl.

Definition user_read (ret_ fd : Z) (p : Z) : M Z :=
  s <- get ;;
  when ((0 <? ret_) && (fd =? infd s))
    (* log the address and size of a buffer to be tainted *)
    (fprintf_funclog (taint_line "read" p ret_) ;;
     printf (taint_line "read" p ret_)) ;;
  ret 0.

Definition user_write (ret_ fd : Z) (p : Z) : M Z :=
  s <- get ;;
  when ((0 <? ret_) && (fd =? outfd s))
    (* log the address and size of a buffer to be checked for taint *)
    (fprintf_funclog (taint_line "write" p ret_) ;;
     printf (taint_line "write" p ret_)) ;;
  ret 0.

(** The [switch] on the syscall number; its case labels are distinct
    constants, and the first label equal to [num] is taken. *)
Definition user_after_syscall (cpu_env : CPUState)
           (fcntl_flags_tbl : bitmask_transtbl) (num : Z)
           (arg1 arg2 arg3 arg4 arg5 arg6 arg7 arg8 : Z)
           (p : Z) (ret_ : Z) : M Z :=
  (if num =? TARGET_NR_read then
     user_read ret_ arg1 p ;; ret tt
   else if num =? TARGET_NR_write then
     user_write ret_ arg1 p ;; ret tt
   else if num =? TARGET_NR_open then
     user_open fcntl_flags_tbl ret_ p arg2 ;; ret tt
   else if num =? TARGET_NR_openat then
     user_open fcntl_flags_tbl ret_ p arg3 ;; ret tt
   else if num =? TARGET_NR_creat then
     user_creat ret_ p ;; ret tt
   else ret tt) ;;
  ret 0.

(** *** Startup and teardown *)

(** The registration of the callbacks and the switch to LLVM execution
    act on QEMU only; the plugin's own part is the opening of the two
    streams. *)
Definition init_plugin : M bool :=
  printf ("Initializing plugin llvm_trace" ++ CString.nl) ;;
  open_memlog ;;
  fopen_funclog ;;
  ret true.

(** [tcg_llvm_write_module], [panda_disable_llvm] and
    [panda_disable_memcb] act on QEMU only. *)
Definition uninit_plugin : M unit :=
  dynval_buffer <- getDynvalBuffer ;;
  when (0 <? cur_size dynval_buffer)%nat
    (* Buffer wasn't flushed before, have to flush it now *)
    (fwrite_memlog (start dynval_buffer) (cur_size dynval_buffer) 1) ;;
  s <- get ;;
  (if negb (PandaInstr_registered s)
   then printf ("Unable to find 'PandaInstr' pass in pass registry"
                  ++ CString.nl)
   else put (set_registered false s)) ;;
  fclose_funclog ;;
  close_memlog.

(** *** Runs of the block callbacks *)

(** What reaches the plugin around the execution of blocks: the callback
    before a block, the calls of the instrumented code, the callback after
    the block, and the callback of a fault that restores the CPU state. *)
Inductive signal : Type :=
| BeforeBlockExec (tb : TranslationBlock)
| LogDynval (e : LoggedEvent)
| AfterBlockExec (tb next_tb : TranslationBlock)
| CpuRestoreState (tb : TranslationBlock).

Definition deliver (env : CPUState) (sg : signal) : M unit :=
  match sg with
  | BeforeBlockExec tb => before_block_exec env tb ;; ret tt
  | LogDynval e => log_dynval (entryKind e) (operation e) (payload e)
  | AfterBlockExec tb next_tb => after_block_exec env tb next_tb ;; ret tt
  | CpuRestoreState tb => cb_cpu_restore_state env tb ;; ret tt
  end.

Fixpoint run (env : CPUState) (sgs : list signal) : M unit :=
  match sgs with
  | [] => ret tt
  | sg :: rest => deliver env sg ;; run env rest
  end.

(** The blocks whose execution a run announces, in order. *)
Fixpoint executed (sgs : list signal) : list TranslationBlock :=
  match sgs with
  | [] => []
  | BeforeBlockExec tb :: rest => tb :: executed rest
  | _ :: rest => executed rest
  end.

(** The ledger line of a block. *)
Definition ledger_line (tb : TranslationBlock) : string :=
  tcg_llvm_get_func_name tb ++ CString.nl.

Definition is_completion (sg : signal) : bool :=
  match sg with AfterBlockExec _ _ => true | _ => false end.

Definition is_fault (sg : signal) : bool :=
  match sg with CpuRestoreState _ => true | _ => false end.

(** The number of write calls on the ledger and on the value log so far. *)
Definition ledger_entries (s : plugin_state) : nat :=
  List.length (writes (funclog s)).

Definition flushes (s : plugin_state) : nat :=
  List.length (writes (memlog s)).

(** The number of flushes that the signals selected by [trigger] perform
    during a run from [s]. *)
Fixpoint flushes_triggered (trigger : signal -> bool) (env : CPUState)
         (sgs : list signal) (s : plugin_state) : nat :=
  match sgs with
  | [] => 0
  | sg :: rest =>
      match deliver env sg s with
      | Some (_, s') =>
          ((if trigger sg then flushes s' - flushes s else 0)
           + flushes_triggered trigger env rest s')%nat
      | None => 0%nat
      end
  end.

(** *** Sessions of whole blocks *)

(** How the execution of a block ends: it completes and control passes to
    the next block, or a fault diverts control. *)
Inductive block_end : Type :=
| Completed (next_tb : TranslationBlock)
| Diverted.

(** One execution of a block: the block, the dynamic values its
    instrumented code logs, and how it ends. *)
Record block_run : Type := mkRun {
  block : TranslationBlock;
  events : list LoggedEvent;
  ending : block_end
}.

Definition end_signal (r : block_run) : signal :=
  match ending r with
  | Completed next_tb => AfterBlockExec (block r) next_tb
  | Diverted => CpuRestoreState (block r)
  end.

Definition signals_of (r : block_run) : list signal :=
  BeforeBlockExec (block r) :: map LogDynval (events r) ++ [end_signal r].

(** Whether the execution of a block completed. *)
Definition completed (r : block_run) : bool :=
  match ending r with
  | Completed _ => true
  | Diverted => false
  end.

(** The bytes the value log holds for one execution of a block. *)
Definition block_log (r : block_run) : list byte :=
  flat_map encode (events r)
    ++ match ending r with
       | Completed _ => []
       | Diverted => encode exception_event
       end.

(** The room a block needs in the buffer. *)
Definition block_fits (cap : nat) (r : block_run) : Prop :=
  match ending r with
  | Completed _ => (List.length (events r) * record_width <= cap)%nat
  | Diverted => (S (List.length (events r)) * record_width <= cap)%nat
  end.

(** A session: the blocks run one after the other, then the plugin is
    unloaded. *)
Definition session (env : CPUState) (rs : list block_run) : M unit :=
  run env (flat_map signals_of rs) ;; uninit_plugin.

(** What the conditional flush of [before_block_exec] and of
    [uninit_plugin] writes: the pending bytes of a buffer that is not
    empty, in one call, and nothing otherwise. *)
Definition pending_flush (b : DynValBuffer) : list (list byte) :=
  if (0 <? cur_size b)%nat then [pending b] else [].

(** The states on which the block callbacks can write both streams. *)
Definition streams_open (s : plugin_state) : Prop :=
  is_open (funclog s) = true /\ is_open (memlog s) = true.

(** The line of a taint record in the words of the trace format:
    [taint,<read|write>,<address>,<length>] with decimal integers. *)
Definition taint_record (dir : string) (address len : Z) : string :=
  "taint," ++ dir ++ "," ++ CString.decimal address ++ ","
    ++ CString.decimal len ++ CString.nl.

(** *** The exclusion list in the words of its comment *)

Definition contains (needle file : string) : bool :=
  match CString.strstr file needle with
  | Some _ => true
  | None => false
  end.

(** A file is excluded when its path starts with [/etc], [/lib], [/proc],
    [/dev] or [/usr], or when it names [openssl.cnf] or [xpdfrc]. *)
Definition excluded (file : string) : bool :=
  prefix "/etc" file || prefix "/lib" file || prefix "/proc" file
  || prefix "/dev" file || prefix "/usr" file
  || contains "openssl.cnf" file || contains "xpdfrc" file.

(** *** The trace as a whole *)

(** The bytes a signal adds to the trace: the record of a logged value,
    the exception marker of a fault, nothing for the two block
    boundaries. *)
Definition emitted (sg : signal) : list byte :=
  match sg with
  | LogDynval e => encode e
  | CpuRestoreState _ => encode exception_event
  | BeforeBlockExec _ => []
  | AfterBlockExec _ _ => []
  end.

(** Everything traced so far: what the value log holds, followed by what
    is pending in the buffer. *)
Definition traced (s : plugin_state) : list byte :=
  contents (memlog s) ++ pending (dynval_buffer s).

(** The cursor of a buffer lies within its storage. *)
Definition buffer_ok (b : DynValBuffer) : Prop :=
  (cur_size b <= capacity b)%nat.

(** The life of the plugin: loaded, driven by the block callbacks,
    unloaded. *)
Definition lifecycle (env : CPUState) (sgs : list signal) : M unit :=
  init_plugin ;; run env sgs ;; uninit_plugin.

(** *** Block callbacks and syscall callbacks together *)

(** What the host delivers to the plugin in user mode: the signals around
    the blocks, and the returns of syscalls. *)
Inductive host_event : Type :=
| BlockSignal (sg : signal)
| SyscallReturn (num arg1 arg2 arg3 arg4 arg5 arg6 arg7 arg8 p ret_ : Z).

Definition handle (env : CPUState) (fcntl_flags_tbl : bitmask_transtbl)
           (ev : host_event) : M unit :=
  match ev with
  | BlockSignal sg => deliver env sg
  | SyscallReturn num arg1 arg2 arg3 arg4 arg5 arg6 arg7 arg8 p ret_ =>
      user_after_syscall env fcntl_flags_tbl num
                         arg1 arg2 arg3 arg4 arg5 arg6 arg7 arg8 p ret_ ;;
      ret tt
  end.

Fixpoint host_run (env : CPUState) (fcntl_flags_tbl : bitmask_transtbl)
         (evs : list host_event) : M unit :=
  match evs with
  | [] => ret tt
  | ev :: rest => handle env fcntl_flags_tbl ev ;; host_run env fcntl_flags_tbl rest
  end.

(** The signals around the blocks among the events of the host. *)
Fixpoint block_signals (evs : list host_event) : list signal :=
  match evs with
  | [] => []
  | BlockSignal sg :: rest => sg :: block_signals rest
  | SyscallReturn _ _ _ _ _ _ _ _ _ _ _ :: rest => block_signals rest
  end.

(** *** The C library's stream behind the ledger

    [funclog] comes from [fopen] and the plugin calls neither [fflush] nor
    [setvbuf] on it, so it is a fully buffered stream: the characters of
    [fprintf] go to the buffer of the stream, a buffer of [bufsiz]
    characters is transmitted to the file when it is full, and [fclose]
    transmits what is left. *)
Record stdio_stream : Type := mkStdio {
  on_file : string;
  in_buffer : string
}.

Definition stdio_putc (bufsiz : nat) (c : ascii) (st : stdio_stream)
  : stdio_stream :=
  let b := in_buffer st ++ String c EmptyString in
  if (bufsiz <=? String.length b)%nat
  then mkStdio (on_file st ++ b) EmptyString
  else mkStdio (on_file st) b.

Fixpoint stdio_puts (bufsiz : nat) (chars : string) (st : stdio_stream)
  : stdio_stream :=
  match chars with
  | EmptyString => st
  | String c rest => stdio_puts bufsiz rest (stdio_putc bufsiz c st)
  end.

(** The stream after the [fprintf] calls made since [fopen]. *)
Definition stdio_calls (bufsiz : nat) (calls : list string) : stdio_stream :=
  fold_left (fun st chars => stdio_puts bufsiz chars st) calls
            (mkStdio EmptyString EmptyString).

(** What the ledger file holds: while the stream is open, what has been
    transmitted; once it is closed, everything. *)
Definition ledger_file (bufsiz : nat) (s : plugin_state) : string :=
  let st := stdio_calls bufsiz (writes (funclog s)) in
  if is_open (funclog s) then on_file st else on_file st ++ in_buffer st.

(** ** Facts about the C model *)

Lemma to_signed_small w z :
  0 < w -> - 2 ^ (w - 1) <= z < 2 ^ (w - 1) -> CInt.to_signed w z = z.
Proof.
  intros Hw Hz. unfold CInt.to_signed.
  assert (Hp : 2 ^ w = 2 * 2 ^ (w - 1)).
  { replace w with (Z.succ (w - 1)) at 1 by lia.
    rewrite Z.pow_succ_r by lia. reflexivity. }
  rewrite Z.mod_small by lia. lia.
Qed.

Lemma to_int_small z : - 2 ^ 31 <= z < 2 ^ 31 -> CInt.to_int z = z.
Proof. intros H. apply to_signed_small; [lia | exact H]. Qed.

Lemma to_long_ulong_small z :
  0 <= z < 2 ^ 63 -> CInt.to_long (CInt.to_ulong z) = z.
Proof.
  intros H. unfold CInt.to_long, CInt.to_ulong, CInt.to_unsigned.
  rewrite Z.mod_small by lia.
  apply to_signed_small; [lia | ]. change (64 - 1) with 63. lia.
Qed.

(** What [%ld] prints for an address or a length below [2 ^ 63]. *)
Lemma fmt_ld_small z :
  0 <= z < 2 ^ 63 -> CString.fmt_ld (CInt.to_ulong z) = CString.decimal z.
Proof.
  intros H. unfold CString.fmt_ld. now rewrite to_long_ulong_small.
Qed.

Lemma code_eq_0 c : CString.code c = 0 -> c = zero.
Proof.
  unfold CString.code. intros H.
  assert (Hn : nat_of_ascii c = O) by lia.
  rewrite <- (ascii_nat_embedding c), Hn. reflexivity.
Qed.

Lemma code_inj c1 c2 : CString.code c1 = CString.code c2 -> c1 = c2.
Proof.
  unfold CString.code. intros H.
  assert (Hn : nat_of_ascii c1 = nat_of_ascii c2) by lia.
  rewrite <- (ascii_nat_embedding c1), <- (ascii_nat_embedding c2), Hn.
  reflexivity.
Qed.

(** Comparing against a literal over the literal's own length is a prefix
    test. *)
Lemma strncmp_prefix lit :
  CString.nul_free lit = true ->
  forall s, CString.strncmp s lit (String.length lit) = 0 <-> prefix lit s = true.
Proof.
  induction lit as [|c lit IH]; intros Hnf s.
  - simpl. destruct s; simpl; tauto.
  - simpl in Hnf. apply andb_true_iff in Hnf. destruct Hnf as [Hc Hnf].
    apply negb_true_iff in Hc. apply Ascii.eqb_neq in Hc.
    destruct s as [|c1 s]; simpl.
    + split; [ | discriminate ].
      intros H. exfalso. apply Hc. apply code_eq_0. lia.
    + destruct (Ascii.eqb_spec c1 c) as [->|Hne].
      * destruct (ascii_dec c c) as [_|Hcc]; [ | contradiction ].
        apply IH. exact Hnf.
      * destruct (ascii_dec c c1) as [->|_]; [ contradiction | ].
        split; [ | discriminate ].
        intros H. exfalso. apply Hne. apply code_inj. lia.
Qed.

Lemma strncmp_prefix_b lit n s :
  n = String.length lit ->
  CString.nul_free lit = true ->
  negb (CString.strncmp s lit n =? 0) = negb (prefix lit s).
Proof.
  intros -> Hnf. f_equal.
  destruct (prefix lit s) eqn:Hp.
  - apply Z.eqb_eq. now apply strncmp_prefix.
  - apply Z.eqb_neq. intros H. apply strncmp_prefix in H; [ congruence | exact Hnf ].
Qed.

(** [strstr] finds a needle exactly when the needle occurs somewhere in
    the file name. *)
Lemma contains_substring needle file :
  needle <> "" ->
  contains needle file = true
  <-> exists m, substring m (String.length needle) file = needle.
Proof.
  intros Hne. unfold contains, CString.strstr.
  destruct (index 0 needle file) as [m|] eqn:Hi.
  - split; [ intros _ | reflexivity ].
    exists m. now apply (index_correct1 0).
  - split; [ discriminate | ].
    intros [m Hm]. exfalso.
    apply (index_correct3 0 m needle file Hi Hne); [ lia | exact Hm ].
Qed.

(** ** Facts about the buffer *)

Lemma write_buffer_fits bytes b :
  (cur_size b + List.length bytes <= capacity b)%nat ->
  exists b',
    write_buffer bytes b = Some b'
    /\ cur_size b' = (cur_size b + List.length bytes)%nat
    /\ capacity b' = capacity b
    /\ pending b' = (pending b ++ bytes)%list.
Proof.
  intros Hfit. unfold write_buffer.
  destruct (Nat.leb_spec (cur_size b + List.length bytes) (capacity b)) as [_|Hlt];
    [ | lia ].
  eexists. split; [ reflexivity | ]. unfold capacity, pending in *. simpl.
  assert (Hlen : List.length (firstn (cur_size b) (start b)) = cur_size b).
  { rewrite length_firstn. lia. }
  repeat split.
  - rewrite !length_app, Hlen, length_skipn. lia.
  - rewrite app_assoc.
    rewrite firstn_app.
    rewrite length_app, Hlen.
    replace (cur_size b + List.length bytes - (cur_size b + List.length bytes))%nat
      with O by lia.
    rewrite firstn_O, app_nil_r.
    apply firstn_all2. rewrite length_app, Hlen. lia.
Qed.

Lemma write_buffer_overflow bytes b :
  (capacity b < cur_size b + List.length bytes)%nat ->
  write_buffer bytes b = None.
Proof.
  intros H. unfold write_buffer.
  destruct (Nat.leb_spec (cur_size b + List.length bytes) (capacity b)); [ lia | reflexivity ].
Qed.

Lemma pending_clear b : pending (clear_buffer b) = [].
Proof. reflexivity. Qed.

(** ** What each callback does to the state *)

Ltac unfold_monad :=
  unfold before_block_exec, after_block_exec, cb_cpu_restore_state,
    uninit_plugin, init_plugin, user_read, user_write, user_open, user_creat,
    log_exception, log_dynval, write_dynval_buffer, clear_dynval_buffer,
    getDynvalBuffer, fprintf_funclog, fwrite_memlog, assert_memlog,
    fclose_funclog, close_memlog, open_memlog, fopen_funclog, printf,
    when, bind, ret, get, put, exec in *.

Lemma fwrite_pending b : firstn (cur_size b * 1) (start b) = pending b.
Proof. unfold pending. now rewrite Nat.mul_1_r. Qed.

Lemma before_block_exec_spec env tb s :
  streams_open s ->
  before_block_exec env tb s =
  Some (0, set_dynval_buffer (clear_buffer (dynval_buffer s))
             (set_memlog (mkFILE true (writes (memlog s)
                                         ++ pending_flush (dynval_buffer s)))
                (set_funclog (append_write (ledger_line tb) (funclog s)) s))).
Proof.
  intros [Hf Hm]. unfold_monad. rewrite Hf. simpl.
  unfold pending_flush.
  destruct (0 <? cur_size (dynval_buffer s))%nat; simpl.
  - rewrite Hm. simpl. rewrite fwrite_pending.
    unfold set_dynval_buffer, set_memlog, append_write. simpl.
    rewrite Hm. reflexivity.
  - unfold set_dynval_buffer, set_memlog. simpl. rewrite app_nil_r.
    destruct (memlog s) as [o w]. simpl in *. subst o. reflexivity.
Qed.

Lemma after_block_exec_spec env tb next_tb s :
  is_open (memlog s) = true ->
  after_block_exec env tb next_tb s =
  Some (0, set_dynval_buffer (clear_buffer (dynval_buffer s))
             (set_memlog (append_write (pending (dynval_buffer s)) (memlog s)) s)).
Proof.
  intros Hm. unfold_monad. rewrite Hm. simpl. rewrite Hm.
  rewrite fwrite_pending. reflexivity.
Qed.

Lemma cb_cpu_restore_state_spec env tb s b' :
  write_buffer (encode exception_event) (dynval_buffer s) = Some b' ->
  cb_cpu_restore_state env tb s =
  Some (0, set_dynval_buffer b'
             (set_stdout (stdout s ++ ["EXCEPTION - logging" ++ CString.nl]) s)).
Proof.
  intros Hw. unfold_monad. simpl. rewrite Hw. reflexivity.
Qed.

Lemma uninit_plugin_spec s :
  streams_open s ->
  exists s',
    uninit_plugin s = Some (tt, s')
    /\ funclog s' = mkFILE false (writes (funclog s))
    /\ memlog s' = mkFILE false (writes (memlog s)
                                   ++ pending_flush (dynval_buffer s))
    /\ dynval_buffer s' = dynval_buffer s.
Proof.
  intros [Hf Hm]. unfold_monad. unfold pending_flush.
  destruct (0 <? cur_size (dynval_buffer s))%nat; simpl.
  - rewrite Hm. simpl.
    destruct (PandaInstr_registered s); simpl; rewrite Hf; simpl; rewrite Hm;
      simpl; rewrite fwrite_pending; eexists; repeat split; reflexivity.
  - destruct (PandaInstr_registered s); simpl; rewrite Hf; simpl; rewrite Hm;
      simpl; rewrite app_nil_r; eexists; repeat split; reflexivity.
Qed.

Lemma log_dynval_spec e s b' :
  write_buffer (encode e) (dynval_buffer s) = Some b' ->
  log_dynval (entryKind e) (operation e) (payload e) s
  = Some (tt, set_dynval_buffer b' s).
Proof.
  intros Hw. unfold_monad. destruct e as [k op v]. simpl in *.
  rewrite Hw. reflexivity.
Qed.

(** The calls of the instrumented code of one block: the records are laid
    one after the other from the cursor on, and nothing else changes. *)
Lemma run_log_events env es : forall s,
  (cur_size (dynval_buffer s) + List.length es * record_width
   <= capacity (dynval_buffer s))%nat ->
  exists b',
    run env (map LogDynval es) s = Some (tt, set_dynval_buffer b' s)
    /\ cur_size b'
       = (cur_size (dynval_buffer s) + List.length es * record_width)%nat
    /\ capacity b' = capacity (dynval_buffer s)
    /\ pending b' = (pending (dynval_buffer s) ++ flat_map encode es)%list.
Proof.
  induction es as [|e es IH]; intros s Hfit.
  - exists (dynval_buffer s). simpl. unfold ret.
    repeat split; try lia.
    + destruct s; reflexivity.
    + now rewrite app_nil_r.
  - simpl in Hfit.
    destruct (write_buffer_fits (encode e) (dynval_buffer s))
      as (b1 & Hw & Hcur & Hcap & Hpend).
    { rewrite encode_width. lia. }
    rewrite encode_width in Hcur.
    destruct (IH (set_dynval_buffer b1 s)) as (b2 & Hrun & Hcur2 & Hcap2 & Hpend2).
    { simpl. lia. }
    exists b2. simpl in *. unfold bind.
    rewrite (log_dynval_spec e s b1 Hw). rewrite Hrun.
    repeat split; try lia.
    rewrite Hpend2, Hpend. now rewrite <- app_assoc.
Qed.

(** Startup leaves both streams open and empty, and the buffer as the
    instrumentation pass made it. *)
Lemma init_plugin_opens_streams s :
  exists s',
    init_plugin s = Some (true, s')
    /\ streams_open s'
    /\ writes (funclog s') = []
    /\ writes (memlog s') = []
    /\ dynval_buffer s' = dynval_buffer s.
Proof.
  unfold_monad. eexists. split; [ reflexivity | ].
  repeat split; reflexivity.
Qed.

(** ** The flush at the end of a block *)

(** C1. For every execution of a block, from the callback before the
    block on: when [after_block_exec] fires after the instrumented code has
    logged the events [es], the value log receives in one write exactly
    [cur_size] bytes from the base of the buffer, which are the encodings
    of [es] in call order, and the cursor of the buffer is 0 afterwards. *)
Theorem after_block_exec_flushes_the_unit env tb next_tb es s :
  streams_open s ->
  (List.length es * record_width <= capacity (dynval_buffer s))%nat ->
  exists s0 s1 s2,
    before_block_exec env tb s = Some (0, s0)
    /\ run env (map LogDynval es) s0 = Some (tt, s1)
    /\ after_block_exec env tb next_tb s1 = Some (0, s2)
    /\ List.length (pending (dynval_buffer s1)) = cur_size (dynval_buffer s1)
    /\ pending (dynval_buffer s1) = flat_map encode es
    /\ writes (memlog s2)
       = (writes (memlog s0) ++ [pending (dynval_buffer s1)])%list
    /\ contents (memlog s2)
       = (contents (memlog s0) ++ flat_map encode es)%list
    /\ cur_size (dynval_buffer s2) = 0%nat.
Proof.
  intros Hopen Hfit.
  eexists. rewrite (before_block_exec_spec env tb s Hopen).
  set (s0 := set_dynval_buffer _ _).
  destruct (run_log_events env es s0) as (b1 & Hrun & Hcur1 & Hcap1 & Hpend1).
  { subst s0. simpl. unfold capacity in *. simpl. lia. }
  change (pending (dynval_buffer s0)) with (@nil byte) in Hpend1.
  change (cur_size (dynval_buffer s0)) with 0%nat in Hcur1.
  change (capacity (dynval_buffer s0)) with (capacity (dynval_buffer s)) in Hcap1.
  simpl in Hpend1.
  exists (set_dynval_buffer b1 s0). eexists.
  split; [ reflexivity | ].
  split; [ exact Hrun | ].
  split; [ apply after_block_exec_spec; reflexivity | ].
  simpl. repeat split.
  - unfold pending. rewrite length_firstn. unfold capacity in *. lia.
  - exact Hpend1.
  - unfold contents. simpl. rewrite !concat_app. simpl.
    now rewrite app_nil_r, Hpend1.
Qed.

(** ** The fault callback *)

(** C2, as the code has it. In an execution of a block that logs the
    events [es] and then faults, the fault callback appends one exception
    marker to the buffer and writes nothing to the value log, so the buffer
    is not empty afterwards; the events followed by the marker reach the
    value log, in one write, at the next [before_block_exec], which leaves
    the cursor at 0. *)
Theorem fault_marker_is_flushed_by_the_next_block env tb tb' es s :
  streams_open s ->
  (S (List.length es) * record_width <= capacity (dynval_buffer s))%nat ->
  exists s0 s1 s2 s3,
    before_block_exec env tb s = Some (0, s0)
    /\ run env (map LogDynval es) s0 = Some (tt, s1)
    /\ cb_cpu_restore_state env tb s1 = Some (0, s2)
    /\ memlog s2 = memlog s0
    /\ pending (dynval_buffer s2)
       = (flat_map encode es ++ encode exception_event)%list
    /\ cur_size (dynval_buffer s2) = (S (List.length es) * record_width)%nat
    /\ (0 < cur_size (dynval_buffer s2))%nat
    /\ before_block_exec env tb' s2 = Some (0, s3)
    /\ writes (memlog s3)
       = (writes (memlog s0)
            ++ [flat_map encode es ++ encode exception_event])%list
    /\ cur_size (dynval_buffer s3) = 0%nat.
Proof.
  intros Hopen Hfit. simpl in Hfit.
  eexists. rewrite (before_block_exec_spec env tb s Hopen).
  set (s0 := set_dynval_buffer _ _).
  destruct (run_log_events env es s0) as (b1 & Hrun & Hcur1 & Hcap1 & Hpend1).
  { subst s0. simpl. unfold capacity in *. simpl. lia. }
  change (pending (dynval_buffer s0)) with (@nil byte) in Hpend1.
  change (cur_size (dynval_buffer s0)) with 0%nat in Hcur1.
  change (capacity (dynval_buffer s0)) with (capacity (dynval_buffer s)) in Hcap1.
  simpl in Hpend1.
  destruct (write_buffer_fits (encode exception_event) b1)
    as (b2 & Hw & Hcur2 & Hcap2 & Hpend2).
  { rewrite encode_width. lia. }
  rewrite encode_width in Hcur2.
  assert (Hpos : (0 < cur_size b2)%nat).
  { pose proof record_width_pos. lia. }
  exists (set_dynval_buffer b1 s0). do 2 eexists.
  split; [ reflexivity | ].
  split; [ exact Hrun | ].
  split; [ apply cb_cpu_restore_state_spec; exact Hw | ].
  split; [ reflexivity | ].
  split; [ simpl; now rewrite Hpend2, Hpend1 | ].
  split; [ simpl; lia | ].
  split; [ exact Hpos | ].
  split; [ apply before_block_exec_spec; split; [ exact (proj1 Hopen) | reflexivity ] | ].
  simpl. split; [ | reflexivity ].
  assert (Hpf : pending_flush b2 = [pending b2]).
  { unfold pending_flush.
    destruct (Nat.ltb_spec 0 (cur_size b2)); [ reflexivity | lia ]. }
  now rewrite Hpf, Hpend2, Hpend1.
Qed.

(** ** The callback before a block *)

(** C3. [before_block_exec] records the block in the ledger; when the
    buffer is not empty it first reaches the value log, in one write of the
    pending bytes, and the buffer is reset; when the buffer is empty the
    ledger entry is the only change of the state. *)
Theorem before_block_exec_flushes_what_is_pending env tb s :
  streams_open s ->
  exists s',
    before_block_exec env tb s = Some (0, s')
    /\ writes (funclog s') = (writes (funclog s) ++ [ledger_line tb])%list
    /\ ((0 < cur_size (dynval_buffer s))%nat ->
        writes (memlog s')
        = (writes (memlog s) ++ [pending (dynval_buffer s)])%list
        /\ cur_size (dynval_buffer s') = 0%nat)
    /\ (cur_size (dynval_buffer s) = 0%nat ->
        s' = set_funclog (append_write (ledger_line tb) (funclog s)) s).
Proof.
  intros Hopen. eexists.
  split; [ apply before_block_exec_spec; exact Hopen | ].
  destruct Hopen as [Hf Hm]. simpl.
  split; [ reflexivity | ]. unfold pending_flush. split.
  - intros Hpos.
    destruct (Nat.ltb_spec 0 (cur_size (dynval_buffer s))) as [_|Hle]; [ | lia ].
    split; reflexivity.
  - intros Hz. rewrite Hz. simpl. rewrite app_nil_r.
    unfold set_dynval_buffer, set_memlog, set_funclog, clear_buffer. simpl.
    destruct s as [fl ml [st cur] i o out reg]. simpl in *. subst cur.
    destruct ml as [op w]. simpl in *. subst op. reflexivity.
Qed.

(** C9. Whenever [before_block_exec] returns, the cursor of the buffer is
    0, whether the buffer was flushed or not. *)
Theorem before_block_exec_leaves_cursor_0 env tb s r s' :
  before_block_exec env tb s = Some (r, s') ->
  cur_size (dynval_buffer s') = 0%nat.
Proof.
  unfold_monad. intros H.
  destruct (is_open (funclog s)); [ | discriminate ]. simpl in H.
  destruct (0 <? cur_size (dynval_buffer s))%nat; simpl in H.
  - destruct (is_open (memlog s)); [ | discriminate ].
    injection H as _ <-. reflexivity.
  - injection H as _ <-. reflexivity.
Qed.

(** ** Runs *)

Lemma run_app env sgs1 sgs2 s :
  run env (sgs1 ++ sgs2) s
  = match run env sgs1 s with
    | Some (_, s1) => run env sgs2 s1
    | None => None
    end.
Proof.
  revert s. induction sgs1 as [|sg sgs1 IH]; intros s; simpl.
  - reflexivity.
  - unfold bind. destruct (deliver env sg s) as [[u s1]|]; [ apply IH | reflexivity ].
Qed.

(** What one signal appends to the ledger: the line of the block for the
    callback before a block, nothing for the others. *)
Lemma deliver_ledger env sg s u s' :
  deliver env sg s = Some (u, s') ->
  writes (funclog s')
  = (writes (funclog s) ++ map ledger_line (executed [sg]))%list.
Proof.
  destruct sg as [tb|e|tb next_tb|tb]; simpl; unfold_monad; intros H.
  - destruct (is_open (funclog s)); [ | discriminate ]. simpl in H.
    destruct (0 <? cur_size (dynval_buffer s))%nat; simpl in H.
    + destruct (is_open (memlog s)); [ | discriminate ].
      injection H as _ <-. reflexivity.
    + injection H as _ <-. reflexivity.
  - destruct (write_buffer _ _); [ | discriminate ].
    injection H as _ <-. simpl. now rewrite app_nil_r.
  - destruct (is_open (memlog s)) eqn:Hm; [ | discriminate ]. simpl in H.
    rewrite Hm in H. injection H as _ <-. simpl. now rewrite app_nil_r.
  - simpl in H. destruct (write_buffer _ _); [ | discriminate ].
    injection H as _ <-. simpl. now rewrite app_nil_r.
Qed.

(** Over a run of the block callbacks, the ledger stream receives exactly
    one [fprintf] call per callback before a block, naming that block, in
    the order of the callbacks; a block executed N times has N lines. *)
Lemma ledger_has_one_line_per_execution env sgs : forall s s',
  exec (run env sgs) s = Some s' ->
  writes (funclog s')
  = (writes (funclog s) ++ map ledger_line (executed sgs))%list.
Proof.
  induction sgs as [|sg sgs IH]; intros s s' H.
  - unfold exec in H. simpl in H. unfold ret in H. injection H as <-.
    simpl. now rewrite app_nil_r.
  - unfold exec in H. simpl in H. unfold bind in H.
    destruct (deliver env sg s) as [[u s1]|] eqn:Hd; [ | discriminate ].
    rewrite (IH s1 s') by (unfold exec; exact H).
    rewrite (deliver_ledger env sg s u s1 Hd).
    rewrite <- app_assoc. f_equal.
    destruct sg; simpl; reflexivity.
Qed.

(** The fault callback never writes to the value log. *)
Lemma fault_triggers_no_flush env sgs : forall s,
  flushes_triggered is_fault env sgs s = 0%nat.
Proof.
  induction sgs as [|sg sgs IH]; intros s; simpl.
  - reflexivity.
  - destruct (deliver env sg s) as [[u s1]|] eqn:Hd; [ | reflexivity ].
    rewrite IH.
    destruct sg as [tb|e|tb next_tb|tb]; simpl; try reflexivity.
    simpl in Hd. unfold_monad. simpl in Hd.
    destruct (write_buffer _ _); [ | discriminate ].
    injection Hd as _ <-. unfold flushes. simpl. lia.
Qed.

(** The callback after a block always performs one flush. *)
Lemma completion_triggers_one_flush env sgs : forall s s',
  exec (run env sgs) s = Some s' ->
  flushes_triggered is_completion env sgs s
  = List.length (filter is_completion sgs).
Proof.
  induction sgs as [|sg sgs IH]; intros s s' H; simpl.
  - reflexivity.
  - unfold exec in H. simpl in H. unfold bind in H.
    destruct (deliver env sg s) as [[u s1]|] eqn:Hd; [ | discriminate ].
    rewrite (IH s1 s') by (unfold exec; exact H).
    destruct sg as [tb|e|tb next_tb|tb]; simpl; try reflexivity.
    simpl in Hd. unfold_monad.
    destruct (is_open (memlog s)) eqn:Hm; [ | discriminate ]. simpl in Hd.
    rewrite Hm in Hd. injection Hd as _ <-. unfold flushes. simpl.
    rewrite length_app. simpl. lia.
Qed.

(** One execution of a block, from any state of the buffer: what was
    pending is flushed first; the log of the block is either flushed by
    the callback after the block or left pending by the fault callback. *)
Lemma run_block env r s :
  streams_open s ->
  block_fits (capacity (dynval_buffer s)) r ->
  exists s1,
    run env (signals_of r) s = Some (tt, s1)
    /\ streams_open s1
    /\ capacity (dynval_buffer s1) = capacity (dynval_buffer s)
    /\ writes (funclog s1)
       = (writes (funclog s) ++ [ledger_line (block r)])%list
    /\ (writes (memlog s1) ++ pending_flush (dynval_buffer s1))%list
       = (writes (memlog s) ++ pending_flush (dynval_buffer s)
            ++ [block_log r])%list.
Proof.
  intros Hopen Hfit. pose proof Hopen as [Hf Hm].
  unfold signals_of. cbn [run]. unfold bind at 1. cbn [deliver]. unfold bind at 1.
  rewrite (before_block_exec_spec env (block r) s Hopen). cbn [ret].
  rewrite run_app.
  set (s0 := set_dynval_buffer _ _).
  assert (Hfit0 : (List.length (events r) * record_width
                   <= capacity (dynval_buffer s0))%nat).
  { subst s0. simpl. unfold capacity, clear_buffer. simpl.
    unfold block_fits, capacity in Hfit. destruct (ending r); lia. }
  destruct (run_log_events env (events r) s0) as (b1 & Hrun & Hcur1 & Hcap1 & Hpend1).
  { subst s0. simpl in *. lia. }
  rewrite Hrun. cbn [run]. unfold bind at 1.
  assert (Hcap0 : capacity (dynval_buffer s0) = capacity (dynval_buffer s)).
  { subst s0. reflexivity. }
  assert (Hcur0 : cur_size (dynval_buffer s0) = 0%nat).
  { subst s0. reflexivity. }
  assert (Hp0 : pending (dynval_buffer s0) = []).
  { subst s0. reflexivity. }
  rewrite Hp0 in Hpend1. simpl in Hpend1.
  unfold end_signal, block_log, block_fits in *.
  destruct (ending r) as [next_tb|]; cbn [deliver]; unfold bind at 1.
  - rewrite after_block_exec_spec by (subst s0; reflexivity).
    cbn [ret]. eexists. split; [ reflexivity | ].
    subst s0. simpl. repeat split; try assumption.
    unfold pending_flush at 1. simpl.
    rewrite Hpend1, !app_nil_r. now rewrite <- app_assoc.
  - destruct (write_buffer_fits (encode exception_event) b1)
      as (b2 & Hw & Hcur2 & Hcap2 & Hpend2).
    { rewrite encode_width. lia. }
    rewrite encode_width in Hcur2.
    rewrite (cb_cpu_restore_state_spec env (block r) _ b2) by exact Hw.
    cbn [ret]. eexists. split; [ reflexivity | ].
    subst s0. simpl. repeat split; try assumption.
    + congruence.
    + assert (Hpf : pending_flush b2 = [pending b2]).
      { unfold pending_flush. pose proof record_width_pos.
        destruct (Nat.ltb_spec 0 (cur_size b2)); [ reflexivity | lia ]. }
      rewrite Hpf, Hpend2, Hpend1. fold (pending_flush (dynval_buffer s)).
      now rewrite <- app_assoc.
Qed.

Lemma run_blocks env rs : forall s,
  streams_open s ->
  Forall (block_fits (capacity (dynval_buffer s))) rs ->
  exists s1,
    run env (flat_map signals_of rs) s = Some (tt, s1)
    /\ streams_open s1
    /\ writes (funclog s1)
       = (writes (funclog s) ++ map (fun r => ledger_line (block r)) rs)%list
    /\ (writes (memlog s1) ++ pending_flush (dynval_buffer s1))%list
       = (writes (memlog s) ++ pending_flush (dynval_buffer s)
            ++ map block_log rs)%list.
Proof.
  induction rs as [|r rs IH]; intros s Hopen Hfit.
  - exists s. simpl. unfold ret. rewrite !app_nil_r. auto.
  - inversion Hfit as [|? ? Hr Hrs]; subst.
    destruct (run_block env r s Hopen Hr) as (s1 & Hrun1 & Hopen1 & Hcap1 & Hl1 & Hm1).
    destruct (IH s1 Hopen1) as (s2 & Hrun2 & Hopen2 & Hl2 & Hm2).
    { now rewrite Hcap1. }
    exists s2. cbn [flat_map map]. rewrite run_app, Hrun1, Hrun2.
    repeat split; try apply Hopen2.
    + rewrite Hl2, Hl1. now rewrite <- app_assoc.
    + rewrite Hm2, app_assoc, Hm1. now rewrite <- !app_assoc.
Qed.

Lemma completions_of_blocks rs :
  List.length (filter is_completion (flat_map signals_of rs))
  = List.length (filter completed rs).
Proof.
  induction rs as [|r rs IH]; [ reflexivity | ].
  cbn [flat_map]. rewrite filter_app, length_app, IH.
  unfold signals_of. cbn [filter is_completion].
  rewrite filter_app, length_app.
  assert (Hlog : filter is_completion (map LogDynval (events r)) = []).
  { induction (events r) as [|e es IHes]; [ reflexivity | exact IHes ]. }
  rewrite Hlog. unfold completed, end_signal.
  destruct (ending r); reflexivity.
Qed.

(** C4, as the code has it. In a session where every execution of a block
    starts with the callback before the block and ends with either the
    callback after it or the fault callback, and the plugin is unloaded at
    the end, the ledger receives one entry and the value log one flush per
    execution, the Nth flush holding the log of the Nth execution. Of these
    flushes the callback after a block performs those of the completed
    executions and the fault callback performs none: the log of a diverted
    execution is flushed by the next callback before a block, or at
    unload. *)
Theorem session_has_one_flush_per_ledger_entry env rs s :
  streams_open s ->
  cur_size (dynval_buffer s) = 0%nat ->
  Forall (block_fits (capacity (dynval_buffer s))) rs ->
  exists s',
    session env rs s = Some (tt, s')
    /\ writes (funclog s')
       = (writes (funclog s) ++ map (fun r => ledger_line (block r)) rs)%list
    /\ writes (memlog s') = (writes (memlog s) ++ map block_log rs)%list
    /\ ledger_entries s' = (ledger_entries s + List.length rs)%nat
    /\ flushes s' = (flushes s + List.length rs)%nat
    /\ flushes_triggered is_completion env (flat_map signals_of rs) s
       = List.length (filter completed rs)
    /\ flushes_triggered is_fault env (flat_map signals_of rs) s = 0%nat.
Proof.
  intros Hopen Hcur Hfit.
  destruct (run_blocks env rs s Hopen Hfit) as (s1 & Hrun & Hopen1 & Hl & Hm).
  destruct (uninit_plugin_spec s1 Hopen1) as (s2 & Hun & Hl2 & Hm2 & _).
  assert (Hpf : pending_flush (dynval_buffer s) = []).
  { unfold pending_flush. rewrite Hcur. reflexivity. }
  rewrite Hpf in Hm. simpl in Hm.
  exists s2. unfold session, bind. rewrite Hrun.
  split; [ exact Hun | ].
  unfold ledger_entries, flushes. rewrite Hl2, Hm2. simpl. rewrite Hm, Hl.
  rewrite !length_app, !length_map.
  repeat split.
  - rewrite (completion_triggers_one_flush env _ s s1)
      by (unfold exec; now rewrite Hrun).
    apply completions_of_blocks.
  - apply fault_triggers_no_flush.
Qed.

(** ** Teardown *)

(** A stream that has been closed cannot be written. *)
Lemma fwrite_memlog_closed ptr size nmemb s :
  is_open (memlog s) = false -> fwrite_memlog ptr size nmemb s = None.
Proof. intros H. unfold fwrite_memlog. now rewrite H. Qed.

(** C8. [uninit_plugin] writes the bytes that are pending in the buffer to
    the value log and only then closes the ledger and the value log: at
    the end both streams are closed and the value log holds what it held,
    followed by the pending bytes. *)
Theorem uninit_plugin_flushes_before_closing s :
  streams_open s ->
  exists s',
    uninit_plugin s = Some (tt, s')
    /\ contents (memlog s')
       = (contents (memlog s) ++ pending (dynval_buffer s))%list
    /\ writes (funclog s') = writes (funclog s)
    /\ is_open (memlog s') = false
    /\ is_open (funclog s') = false.
Proof.
  intros Hopen.
  destruct (uninit_plugin_spec s Hopen) as (s' & Hun & Hl & Hm & _).
  exists s'. split; [ exact Hun | ].
  rewrite Hl, Hm. unfold contents. simpl. repeat split.
  rewrite concat_app. f_equal.
  unfold pending_flush, pending.
  destruct (cur_size (dynval_buffer s)); simpl; [ reflexivity | ].
  now rewrite app_nil_r.
Qed.

(** ** The trace over arbitrary runs *)

Lemma write_buffer_some bytes b b' :
  write_buffer bytes b = Some b' ->
  cur_size b' = (cur_size b + List.length bytes)%nat
  /\ capacity b' = capacity b
  /\ pending b' = (pending b ++ bytes)%list
  /\ buffer_ok b'.
Proof.
  intros H.
  destruct (Nat.le_gt_cases (cur_size b + List.length bytes) (capacity b))
    as [Hfit|Hover].
  - destruct (write_buffer_fits bytes b Hfit) as (b1 & Hw & Hcur & Hcap & Hpend).
    rewrite Hw in H. injection H as <-.
    repeat split; try assumption. unfold buffer_ok. lia.
  - rewrite write_buffer_overflow in H by exact Hover. discriminate.
Qed.

Lemma concat_snoc (ws : list (list byte)) (w : list byte) :
  List.concat (ws ++ [w]) = (List.concat ws ++ w)%list.
Proof. rewrite concat_app. simpl. now rewrite app_nil_r. Qed.

(** One signal moves bytes from the buffer to the value log or adds bytes
    to the buffer; it never drops or reorders any. *)
Lemma deliver_traced env sg s u s' :
  deliver env sg s = Some (u, s') ->
  traced s' = (traced s ++ emitted sg)%list.
Proof.
  unfold traced.
  destruct sg as [tb|[k op v]|tb next_tb|tb]; simpl; unfold_monad; intros H.
  - destruct (is_open (funclog s)); [ | discriminate ]. simpl in H.
    destruct (Nat.ltb_spec 0 (cur_size (dynval_buffer s))) as [Hpos|Hz];
      simpl in H.
    + destruct (is_open (memlog s)); [ | discriminate ].
      injection H as _ <-. unfold contents. simpl.
      rewrite concat_snoc, fwrite_pending. now rewrite !app_nil_r.
    + injection H as _ <-. simpl. unfold pending.
      replace (cur_size (dynval_buffer s)) with 0%nat by lia.
      simpl. now rewrite !app_nil_r.
  - destruct (write_buffer _ _) as [b'|] eqn:Hw; [ | discriminate ].
    injection H as _ <-. simpl.
    destruct (write_buffer_some _ _ _ Hw) as (_ & _ & Hp & _).
    rewrite Hp. now rewrite app_assoc.
  - destruct (is_open (memlog s)) eqn:Hm; [ | discriminate ]. simpl in H.
    rewrite Hm in H. injection H as _ <-. unfold contents. simpl.
    rewrite concat_snoc, fwrite_pending. now rewrite !app_nil_r.
  - simpl in H.
    destruct (write_buffer _ _) as [b'|] eqn:Hw; [ | discriminate ].
    injection H as _ <-. simpl.
    destruct (write_buffer_some _ _ _ Hw) as (_ & _ & Hp & _).
    rewrite Hp. now rewrite app_assoc.
Qed.

(** One signal opens or closes no stream and keeps the descriptors of the
    syscall callbacks. *)
Lemma deliver_frame env sg s u s' :
  deliver env sg s = Some (u, s') ->
  is_open (funclog s') = is_open (funclog s)
  /\ is_open (memlog s') = is_open (memlog s)
  /\ infd s' = infd s
  /\ outfd s' = outfd s.
Proof.
  destruct sg as [tb|e|tb next_tb|tb]; simpl; unfold_monad; intros H.
  - destruct (is_open (funclog s)) eqn:Hf; [ | discriminate ]. simpl in H.
    destruct (0 <? cur_size (dynval_buffer s))%nat; simpl in H.
    + destruct (is_open (memlog s)) eqn:Hm; [ | discriminate ].
      injection H as _ <-. simpl; repeat split; try reflexivity; congruence.
    + injection H as _ <-. simpl; repeat split; try reflexivity; congruence.
  - destruct (write_buffer _ _); [ | discriminate ].
    injection H as _ <-. simpl; repeat split; try reflexivity; congruence.
  - destruct (is_open (memlog s)) eqn:Hm; [ | discriminate ]. simpl in H.
    rewrite Hm in H. injection H as _ <-. simpl; repeat split; try reflexivity; congruence.
  - simpl in H. destruct (write_buffer _ _); [ | discriminate ].
    injection H as _ <-. simpl; repeat split; try reflexivity; congruence.
Qed.

(** One signal keeps the storage of the buffer and leaves the cursor
    within it. *)
Lemma deliver_buffer env sg s u s' :
  deliver env sg s = Some (u, s') ->
  capacity (dynval_buffer s') = capacity (dynval_buffer s)
  /\ buffer_ok (dynval_buffer s').
Proof.
  destruct sg as [tb|e|tb next_tb|tb]; simpl; unfold_monad; intros H.
  - destruct (is_open (funclog s)); [ | discriminate ]. simpl in H.
    destruct (0 <? cur_size (dynval_buffer s))%nat; simpl in H.
    + destruct (is_open (memlog s)); [ | discriminate ].
      injection H as _ <-. simpl. split; [ reflexivity | ].
      unfold buffer_ok. simpl. lia.
    + injection H as _ <-. simpl. split; [ reflexivity | ].
      unfold buffer_ok. simpl. lia.
  - destruct (write_buffer _ _) as [b'|] eqn:Hw; [ | discriminate ].
    injection H as _ <-. simpl.
    destruct (write_buffer_some _ _ _ Hw) as (_ & Hc & _ & Hok). auto.
  - destruct (is_open (memlog s)) eqn:Hm; [ | discriminate ]. simpl in H.
    rewrite Hm in H. injection H as _ <-. simpl. split; [ reflexivity | ].
    unfold buffer_ok. simpl. lia.
  - simpl in H.
    destruct (write_buffer _ _) as [b'|] eqn:Hw; [ | discriminate ].
    injection H as _ <-. simpl.
    destruct (write_buffer_some _ _ _ Hw) as (_ & Hc & _ & Hok). auto.
Qed.

Lemma run_keeps_streams env sgs : forall s s',
  exec (run env sgs) s = Some s' ->
  is_open (funclog s') = is_open (funclog s)
  /\ is_open (memlog s') = is_open (memlog s).
Proof.
  induction sgs as [|sg sgs IH]; intros s s' H; unfold exec in H; simpl in H.
  - unfold ret in H. injection H as <-. auto.
  - unfold bind in H.
    destruct (deliver env sg s) as [[u s1]|] eqn:Hd; [ | discriminate ].
    destruct (deliver_frame env sg s u s1 Hd) as (Hf & Hm & _).
    destruct (IH s1 s') as [Hf' Hm']; [ unfold exec; exact H | ].
    split; congruence.
Qed.

(** X1. Whatever the order of the signals of a run that returns, the
    value log followed by the pending bytes of the buffer is what it was
    before the run, followed by the records of the logged values and the
    exception markers of the faults, in the order of the signals: no record
    is lost, repeated or moved. *)
Theorem run_loses_no_record env sgs : forall s s',
  exec (run env sgs) s = Some s' ->
  traced s' = (traced s ++ flat_map emitted sgs)%list.
Proof.
  induction sgs as [|sg sgs IH]; intros s s' H; unfold exec in H; simpl in H.
  - unfold ret in H. injection H as <-. now rewrite app_nil_r.
  - unfold bind in H.
    destruct (deliver env sg s) as [[u s1]|] eqn:Hd; [ | discriminate ].
    rewrite (IH s1 s') by (unfold exec; exact H).
    rewrite (deliver_traced env sg s u s1 Hd).
    now rewrite <- app_assoc.
Qed.

(** X2. A whole life of the plugin that returns: loaded, driven by any
    run of the block callbacks, unloaded. The value log then holds exactly
    what the buffer held at load time followed by the records and markers
    of the run, in order, and both streams are closed. *)
Theorem lifecycle_value_log env sgs s s' :
  exec (lifecycle env sgs) s = Some s' ->
  contents (memlog s')
  = (pending (dynval_buffer s) ++ flat_map emitted sgs)%list
  /\ is_open (memlog s') = false
  /\ is_open (funclog s') = false.
Proof.
  unfold lifecycle, exec. unfold bind at 1.
  destruct (init_plugin_opens_streams s) as (s0 & Hinit & Hopen0 & _ & Hm0 & Hb0).
  rewrite Hinit. unfold bind at 1.
  destruct (run env sgs s0) as [[u s1]|] eqn:Hrun; [ | discriminate ].
  assert (Hexec : exec (run env sgs) s0 = Some s1).
  { unfold exec. now rewrite Hrun. }
  destruct (run_keeps_streams env sgs s0 s1 Hexec) as [Hf1 Hm1].
  assert (Hopen1 : streams_open s1).
  { destruct Hopen0. split; congruence. }
  destruct (uninit_plugin_spec s1 Hopen1) as (s2 & Hun & Hl2 & Hm2 & _).
  rewrite Hun. intros H. injection H as <-.
  rewrite Hl2, Hm2. simpl. repeat split.
  assert (Htr : traced s1 = (traced s0 ++ flat_map emitted sgs)%list).
  { clear - Hexec. revert s0 s1 Hexec.
    induction sgs as [|sg sgs IH]; intros s0 s1 H; unfold exec in H; simpl in H.
    - unfold ret in H. injection H as <-. now rewrite app_nil_r.
    - unfold bind in H.
      destruct (deliver env sg s0) as [[u s']|] eqn:Hd; [ | discriminate ].
      rewrite (IH s' s1) by (unfold exec; exact H).
      rewrite (deliver_traced env sg s0 u s' Hd).
      now rewrite <- app_assoc. }
  unfold traced, contents in Htr. rewrite Hm0, Hb0 in Htr. simpl in Htr.
  rewrite <- Htr. unfold contents. simpl. rewrite concat_app. f_equal.
  unfold pending_flush, pending.
  destruct (cur_size (dynval_buffer s1)); simpl; [ reflexivity | ].
  now rewrite app_nil_r.
Qed.

(** X3. Over a run of the block callbacks that returns, the storage of
    the buffer keeps its size, and a cursor that was within the storage
    stays within it: no flush reads past the end of the buffer. *)
Theorem run_keeps_cursor_in_bounds env sgs : forall s s',
  exec (run env sgs) s = Some s' ->
  buffer_ok (dynval_buffer s) ->
  capacity (dynval_buffer s') = capacity (dynval_buffer s)
  /\ buffer_ok (dynval_buffer s').
Proof.
  induction sgs as [|sg sgs IH]; intros s s' H Hok; unfold exec in H; simpl in H.
  - unfold ret in H. injection H as <-. auto.
  - unfold bind in H.
    destruct (deliver env sg s) as [[u s1]|] eqn:Hd; [ | discriminate ].
    destruct (deliver_buffer env sg s u s1 Hd) as [Hcap1 Hok1].
    destruct (IH s1 s') as [Hcap Hok']; [ unfold exec; exact H | exact Hok1 | ].
    split; [ congruence | exact Hok' ].
Qed.

(** X4. The block callbacks never change the descriptors that the syscall
    callbacks have designated. *)
Theorem run_keeps_descriptors env sgs : forall s s',
  exec (run env sgs) s = Some s' ->
  infd s' = infd s /\ outfd s' = outfd s.
Proof.
  induction sgs as [|sg sgs IH]; intros s s' H; unfold exec in H; simpl in H.
  - unfold ret in H. injection H as <-. auto.
  - unfold bind in H.
    destruct (deliver env sg s) as [[u s1]|] eqn:Hd; [ | discriminate ].
    destruct (deliver_frame env sg s u s1 Hd) as (_ & _ & Hi & Ho).
    destruct (IH s1 s') as [Hi' Ho']; [ unfold exec; exact H | ].
    split; congruence.
Qed.

(** X5. Once a block has completed, flushing again adds no byte to the
    value log: the next [before_block_exec] does not write to it at all,
    and a repeated [after_block_exec] writes zero bytes. *)
Theorem flush_after_completion_adds_nothing env tb next_tb tb' s :
  streams_open s ->
  exists s1 s2 s3,
    after_block_exec env tb next_tb s = Some (0, s1)
    /\ before_block_exec env tb' s1 = Some (0, s2)
    /\ memlog s2 = memlog s1
    /\ after_block_exec env tb next_tb s1 = Some (0, s3)
    /\ contents (memlog s3) = contents (memlog s1)
    /\ flushes s3 = S (flushes s1).
Proof.
  intros [Hf Hm].
  do 3 eexists.
  split; [ apply after_block_exec_spec; exact Hm | ].
  split; [ apply before_block_exec_spec; split; simpl; assumption | ].
  split.
  { simpl. rewrite app_nil_r. unfold append_write. now rewrite Hm. }
  split; [ apply after_block_exec_spec; simpl; exact Hm | ].
  unfold contents, flushes. simpl.
  rewrite concat_snoc, app_nil_r, length_app. simpl. split; [ reflexivity | lia ].
Qed.

(** ** The ledger file *)

Lemma string_app_nil_r (a : string) : (a ++ "")%string = a.
Proof. induction a as [|c a IH]; simpl; [ reflexivity | now rewrite IH ]. Qed.

Lemma string_app_assoc (a b c : string) :
  ((a ++ b) ++ c)%string = (a ++ b ++ c)%string.
Proof. induction a as [|x a IH]; simpl; [ reflexivity | now rewrite IH ]. Qed.

Lemma string_length_app (a b : string) :
  String.length (a ++ b) = (String.length a + String.length b)%nat.
Proof. induction a as [|x a IH]; simpl; [ reflexivity | now rewrite IH ]. Qed.

(** No character is lost between the buffer and the file. *)
Lemma stdio_puts_all bufsiz chars : forall st,
  (on_file (stdio_puts bufsiz chars st)
     ++ in_buffer (stdio_puts bufsiz chars st))%string
  = (on_file st ++ in_buffer st ++ chars)%string.
Proof.
  induction chars as [|c rest IH]; intros st; simpl.
  - now rewrite string_app_nil_r.
  - rewrite IH. unfold stdio_putc.
    destruct (bufsiz <=? String.length (in_buffer st ++ String c ""))%nat; simpl.
    + now rewrite !string_app_assoc.
    + now rewrite string_app_assoc.
Qed.

(** Characters that leave room in the buffer stay in the buffer. *)
Lemma stdio_puts_small bufsiz chars : forall st,
  (String.length (in_buffer st) + String.length chars < bufsiz)%nat ->
  stdio_puts bufsiz chars st
  = mkStdio (on_file st) (in_buffer st ++ chars).
Proof.
  induction chars as [|c rest IH]; intros st Hroom; simpl.
  - rewrite string_app_nil_r. destruct st; reflexivity.
  - simpl in Hroom. unfold stdio_putc.
    destruct (Nat.leb_spec bufsiz (String.length (in_buffer st ++ String c "")))
      as [Hfull|_].
    + rewrite string_length_app in Hfull. simpl in Hfull. lia.
    + rewrite IH; simpl.
      * now rewrite string_app_assoc.
      * rewrite string_length_app. simpl. lia.
Qed.

Lemma stdio_fold_all bufsiz calls : forall st,
  let st' := fold_left (fun st chars => stdio_puts bufsiz chars st) calls st in
  (on_file st' ++ in_buffer st')%string
  = (on_file st ++ in_buffer st
       ++ fold_right String.append EmptyString calls)%string.
Proof.
  induction calls as [|chars calls IH]; intros st; simpl.
  - now rewrite string_app_nil_r.
  - simpl in IH. rewrite IH.
    rewrite <- string_app_assoc, stdio_puts_all.
    now rewrite !string_app_assoc.
Qed.

Lemma stdio_fold_small bufsiz calls : forall st,
  (String.length (in_buffer st)
   + String.length (fold_right String.append EmptyString calls) < bufsiz)%nat ->
  fold_left (fun st chars => stdio_puts bufsiz chars st) calls st
  = mkStdio (on_file st)
            (in_buffer st ++ fold_right String.append EmptyString calls).
Proof.
  induction calls as [|chars calls IH]; intros st Hroom; simpl in *.
  - rewrite string_app_nil_r. destruct st; reflexivity.
  - rewrite string_length_app in Hroom.
    rewrite stdio_puts_small by lia.
    rewrite IH; simpl.
    + now rewrite string_app_assoc.
    + rewrite string_length_app. lia.
Qed.


(** ** The syscall callbacks *)

(** The test of [user_open] is the exclusion list. *)
Lemma of_interest_excluded file : of_interest file = negb (excluded file).
Proof.
  unfold of_interest, excluded, contains.
  rewrite (strncmp_prefix_b "/etc" 4), (strncmp_prefix_b "/lib" 4),
    (strncmp_prefix_b "/proc" 5), (strncmp_prefix_b "/dev" 4),
    (strncmp_prefix_b "/usr" 4) by reflexivity.
  rewrite !negb_orb.
  destruct (CString.strstr file "openssl.cnf"), (CString.strstr file "xpdfrc");
    reflexivity.
Qed.

Lemma user_read_spec ret_ fd p s :
  is_open (funclog s) = true ->
  user_read ret_ fd p s
  = Some (0, if (0 <? ret_) && (fd =? infd s)
             then set_stdout (stdout s ++ [taint_line "read" p ret_])
                    (set_funclog (append_write (taint_line "read" p ret_)
                                               (funclog s)) s)
             else s).
Proof.
  intros Hf. unfold_monad.
  destruct ((0 <? ret_) && (fd =? infd s)); [ | reflexivity ].
  rewrite Hf. reflexivity.
Qed.

Lemma user_write_spec ret_ fd p s :
  is_open (funclog s) = true ->
  user_write ret_ fd p s
  = Some (0, if (0 <? ret_) && (fd =? outfd s)
             then set_stdout (stdout s ++ [taint_line "write" p ret_])
                    (set_funclog (append_write (taint_line "write" p ret_)
                                               (funclog s)) s)
             else s).
Proof.
  intros Hf. unfold_monad.
  destruct ((0 <? ret_) && (fd =? outfd s)); [ | reflexivity ].
  rewrite Hf. reflexivity.
Qed.

(** [user_open] always returns, and touches the two descriptors and the
    standard output only. *)
Lemma user_open_spec tbl ret_ p flagarg s :
  exists s',
    user_open tbl ret_ p flagarg s = Some (0, s')
    /\ funclog s' = funclog s
    /\ memlog s' = memlog s
    /\ dynval_buffer s' = dynval_buffer s
    /\ infd s'
       = (if (0 <? ret_) && of_interest (path (string_at p))
             && (Z.land (CInt.to_uint (target_to_host_bitmask flagarg tbl))
                        O_WRONLY =? 0)
          then CInt.to_int ret_ else infd s)
    /\ outfd s'
       = (if (0 <? ret_) && of_interest (path (string_at p))
             && negb (Z.land (CInt.to_uint (target_to_host_bitmask flagarg tbl))
                             O_WRONLY =? 0)
          then CInt.to_int ret_ else outfd s).
Proof.
  unfold_monad. change (Z.lor O_RDONLY O_WRONLY) with O_WRONLY.
  change O_RDONLY with 0.
  destruct (0 <? ret_); simpl; [ | eexists; repeat split; reflexivity ].
  destruct (of_interest (path (string_at p))); simpl;
    [ | eexists; repeat split; reflexivity ].
  destruct (Z.land _ O_WRONLY =? 0); simpl; eexists; repeat split; reflexivity.
Qed.

Lemma user_creat_spec ret_ p s :
  exists s',
    user_creat ret_ p s = Some (0, s')
    /\ funclog s' = funclog s
    /\ memlog s' = memlog s
    /\ dynval_buffer s' = dynval_buffer s
    /\ infd s' = infd s
    /\ outfd s' = (if 0 <? ret_ then CInt.to_int ret_ else outfd s).
Proof.
  unfold_monad.
  destruct (0 <? ret_); simpl; eexists; repeat split; reflexivity.
Qed.

(** C6. A syscall return appends a line to the ledger exactly when it is
    a read that returned [r > 0] on the descriptor [infd], or a write that
    returned [r > 0] on the descriptor [outfd]; the line is then
    [taint,read,<p>,<r>] or [taint,write,<p>,<r>], with the address of the
    buffer and the returned length in decimal. *)
Theorem taint_line_iff_designated_descriptor
        cpu_env tbl num arg1 arg2 arg3 arg4 arg5 arg6 arg7 arg8 p r s :
  is_open (funclog s) = true ->
  0 <= p < 2 ^ 63 ->
  r < 2 ^ 63 ->
  exists s',
    user_after_syscall cpu_env tbl num arg1 arg2 arg3 arg4 arg5 arg6 arg7 arg8
                       p r s = Some (0, s')
    /\ writes (funclog s')
       = (writes (funclog s)
            ++ if num =? TARGET_NR_read then
                 if (0 <? r) && (arg1 =? infd s)
                 then [taint_record "read" p r]
                 else []
               else if num =? TARGET_NR_write then
                 if (0 <? r) && (arg1 =? outfd s)
                 then [taint_record "write" p r]
                 else []
               else [])%list.
Proof.
  intros Hf Hp Hr.
  assert (Hline : forall dir, 0 < r ->
            taint_line dir p r = taint_record dir p r).
  { intros dir Hpos. unfold taint_line, taint_record.
    rewrite !fmt_ld_small by lia. reflexivity. }
  unfold user_after_syscall, bind at 1.
  destruct (num =? TARGET_NR_read).
  { unfold bind at 1. rewrite user_read_spec by exact Hf. cbn [ret].
    eexists. split; [ reflexivity | ].
    destruct (Z.ltb_spec 0 r) as [Hpos|Hle]; simpl;
      [ | now rewrite app_nil_r ].
    destruct (arg1 =? infd s); simpl; [ | now rewrite app_nil_r ].
    now rewrite Hline. }
  destruct (num =? TARGET_NR_write).
  { unfold bind at 1. rewrite user_write_spec by exact Hf. cbn [ret].
    eexists. split; [ reflexivity | ].
    destruct (Z.ltb_spec 0 r) as [Hpos|Hle]; simpl;
      [ | now rewrite app_nil_r ].
    destruct (arg1 =? outfd s); simpl; [ | now rewrite app_nil_r ].
    now rewrite Hline. }
  destruct (num =? TARGET_NR_open).
  { destruct (user_open_spec tbl r p arg2 s) as (s' & Hop & Hfl & _).
    unfold bind at 1. rewrite Hop. cbn [ret]. eexists.
    split; [ reflexivity | ]. rewrite Hfl. now rewrite app_nil_r. }
  destruct (num =? TARGET_NR_openat).
  { destruct (user_open_spec tbl r p arg3 s) as (s' & Hop & Hfl & _).
    unfold bind at 1. rewrite Hop. cbn [ret]. eexists.
    split; [ reflexivity | ]. rewrite Hfl. now rewrite app_nil_r. }
  destruct (num =? TARGET_NR_creat).
  { destruct (user_creat_spec r p s) as (s' & Hcr & Hfl & _).
    unfold bind at 1. rewrite Hcr. cbn [ret]. eexists.
    split; [ reflexivity | ]. rewrite Hfl. now rewrite app_nil_r. }
  cbn [ret]. eexists. split; [ reflexivity | ]. now rewrite app_nil_r.
Qed.

(** C7, as the code has it. An open or openat that returned [ret > 0]
    designates the descriptor only when the path is not on the exclusion
    list: as the taint source when the flags do not have the [O_WRONLY]
    bit, as the taint sink when they have it, and it leaves the other
    descriptor as it was. A creat that returned [ret > 0] designates the
    taint sink whatever the path is. Each descriptor is one variable,
    overwritten by the latest designation. *)
Theorem open_designates_unless_excluded tbl ret_ p flagarg s :
  exists s1 s2,
    user_open tbl ret_ p flagarg s = Some (0, s1)
    /\ infd s1
       = (if (0 <? ret_) && negb (excluded (path (string_at p)))
             && (Z.land (CInt.to_uint (target_to_host_bitmask flagarg tbl))
                        O_WRONLY =? 0)
          then CInt.to_int ret_ else infd s)
    /\ outfd s1
       = (if (0 <? ret_) && negb (excluded (path (string_at p)))
             && negb (Z.land (CInt.to_uint (target_to_host_bitmask flagarg tbl))
                             O_WRONLY =? 0)
          then CInt.to_int ret_ else outfd s)
    /\ user_creat ret_ p s = Some (0, s2)
    /\ infd s2 = infd s
    /\ outfd s2 = (if 0 <? ret_ then CInt.to_int ret_ else outfd s).
Proof.
  destruct (user_open_spec tbl ret_ p flagarg s) as (s1 & Hop & _ & _ & _ & Hi & Ho).
  destruct (user_creat_spec ret_ p s) as (s2 & Hcr & _ & _ & _ & Hi2 & Ho2).
  exists s1, s2. rewrite <- of_interest_excluded. auto 10.
Qed.

(** C10, as the code has it. An open that returned [ret > 0] (the
    descriptor 0 does not pass this test) on a path of interest with the
    access mode [O_RDWR] passes the test on [O_RDONLY | O_WRONLY]: the
    descriptor becomes the taint source, and the taint sink is left as it
    was. *)
Theorem open_rdwr_designates_the_source tbl ret_ p flagarg s :
  0 < ret_ ->
  of_interest (path (string_at p)) = true ->
  Z.land (CInt.to_uint (target_to_host_bitmask flagarg tbl)) O_ACCMODE = O_RDWR ->
  (Z.land (CInt.to_uint (target_to_host_bitmask flagarg tbl))
          (Z.lor O_RDONLY O_WRONLY) =? O_RDONLY) = true
  /\ exists s',
       user_open tbl ret_ p flagarg s = Some (0, s')
       /\ infd s' = CInt.to_int ret_
       /\ outfd s' = outfd s.
Proof.
  intros Hret Hint Hacc.
  assert (Hbit : Z.land (CInt.to_uint (target_to_host_bitmask flagarg tbl))
                        O_WRONLY = 0).
  { change O_WRONLY with (Z.land O_ACCMODE 1).
    rewrite Z.land_assoc, Hacc. reflexivity. }
  split.
  { change (Z.lor O_RDONLY O_WRONLY) with O_WRONLY. rewrite Hbit. reflexivity. }
  destruct (user_open_spec tbl ret_ p flagarg s) as (s' & Hop & _ & _ & _ & Hi & Ho).
  exists s'. split; [ exact Hop | ].
  rewrite Hi, Ho, Hint, Hbit.
  destruct (Z.ltb_spec 0 ret_); [ split; reflexivity | lia ].
Qed.

(** ** More on the syscall callbacks *)

(** X6. An open that did not return a positive descriptor, or whose path
    fails the test of interest, changes nothing: no descriptor is
    designated and nothing is printed. *)
Theorem user_open_ignores_failed_and_excluded tbl ret_ p flagarg s :
  ret_ <= 0 \/ of_interest (path (string_at p)) = false ->
  user_open tbl ret_ p flagarg s = Some (0, s).
Proof.
  intros H. unfold user_open, when, bind, ret.
  destruct (Z.ltb_spec 0 ret_) as [Hpos|Hle]; [ | reflexivity ].
  destruct H as [Hle|Hex]; [ lia | ].
  rewrite Hex. reflexivity.
Qed.

(** X7. Designation and taint line compose: after an open of interest
    without the [O_WRONLY] bit has returned the descriptor [ret], whatever
    descriptor was designated before, a read that returns [r > 0] appends
    its taint line to the ledger exactly when it is a read on [ret]. *)
Theorem read_after_open_is_tainted tbl ret_ p flagarg s :
  is_open (funclog s) = true ->
  0 < ret_ < 2 ^ 31 ->
  of_interest (path (string_at p)) = true ->
  Z.land (CInt.to_uint (target_to_host_bitmask flagarg tbl)) O_WRONLY = 0 ->
  exists s1,
    user_open tbl ret_ p flagarg s = Some (0, s1)
    /\ forall r fd buf,
         0 < r ->
         exists s2,
           user_read r fd buf s1 = Some (0, s2)
           /\ writes (funclog s2)
              = (writes (funclog s)
                   ++ if fd =? ret_ then [taint_line "read" buf r] else [])%list.
Proof.
  intros Hf Hret Hint Hbit.
  destruct (user_open_spec tbl ret_ p flagarg s) as (s1 & Hop & Hfl & _ & _ & Hi & _).
  exists s1. split; [ exact Hop | ].
  intros r fd buf Hr.
  rewrite Hint, Hbit in Hi.
  destruct (Z.ltb_spec 0 ret_) as [_|Hle]; [ | lia ]. simpl in Hi.
  rewrite to_int_small in Hi by lia.
  eexists. split; [ apply user_read_spec; rewrite Hfl; exact Hf | ].
  rewrite Hi, Hfl.
  destruct (Z.ltb_spec 0 r) as [_|Hle]; [ | lia ]. simpl.
  destruct (fd =? ret_); simpl; rewrite ?Hfl, ?app_nil_r; reflexivity.
Qed.

(** X8. The same for the taint sink: after a creat has returned the
    descriptor [ret], whatever the path and whatever descriptor was
    designated before, a write that returns [r > 0] appends its taint line
    to the ledger exactly when it is a write on [ret]. *)
Theorem write_after_creat_is_tainted ret_ p s :
  is_open (funclog s) = true ->
  0 < ret_ < 2 ^ 31 ->
  exists s1,
    user_creat ret_ p s = Some (0, s1)
    /\ forall r fd buf,
         0 < r ->
         exists s2,
           user_write r fd buf s1 = Some (0, s2)
           /\ writes (funclog s2)
              = (writes (funclog s)
                   ++ if fd =? ret_ then [taint_line "write" buf r] else [])%list.
Proof.
  intros Hf Hret.
  destruct (user_creat_spec ret_ p s) as (s1 & Hcr & Hfl & _ & _ & _ & Ho).
  exists s1. split; [ exact Hcr | ].
  intros r fd buf Hr.
  destruct (Z.ltb_spec 0 ret_) as [_|Hle]; [ | lia ].
  rewrite to_int_small in Ho by lia.
  eexists. split; [ apply user_write_spec; rewrite Hfl; exact Hf | ].
  rewrite Ho, Hfl.
  destruct (Z.ltb_spec 0 r) as [_|Hle]; [ | lia ]. simpl.
  destruct (fd =? ret_); simpl; rewrite ?Hfl, ?app_nil_r; reflexivity.
Qed.

(** X9. An open of interest that returned a positive descriptor reports
    exactly one direction on the standard output: [open <file> for ]
    followed by [read] when the flags lack the [O_WRONLY] bit and by
    [write] when they have it, never both and never neither. *)
Theorem user_open_reports_one_direction tbl ret_ p flagarg s :
  0 < ret_ ->
  of_interest (path (string_at p)) = true ->
  exists s',
    user_open tbl ret_ p flagarg s = Some (0, s')
    /\ stdout s'
       = (stdout s
            ++ [ ("open " ++ path (string_at p) ++ " for ")%string;
                 ((if Z.eqb (Z.land (CInt.to_uint
                                        (target_to_host_bitmask flagarg tbl))
                                    O_WRONLY) 0
                   then "read" else "write") ++ CString.nl)%string ])%list.
Proof.
  intros Hret Hint. unfold_monad.
  change (Z.lor O_RDONLY O_WRONLY) with O_WRONLY. change O_RDONLY with 0.
  destruct (Z.ltb_spec 0 ret_) as [_|Hle]; [ | lia ].
  rewrite Hint. simpl.
  destruct (Z.land _ O_WRONLY =? 0); simpl; eexists;
    (split; [ reflexivity | ]); simpl; now rewrite <- app_assoc.
Qed.

(** Whatever the syscall, a syscall callback that returns has returned 0
    and has touched neither the value log nor the buffer. *)
Lemma user_after_syscall_keeps_the_trace
        cpu_env tbl num arg1 arg2 arg3 arg4 arg5 arg6 arg7 arg8 p ret_ s r s' :
  user_after_syscall cpu_env tbl num arg1 arg2 arg3 arg4 arg5 arg6 arg7 arg8
                     p ret_ s = Some (r, s') ->
  r = 0
  /\ memlog s' = memlog s
  /\ dynval_buffer s' = dynval_buffer s.
Proof.
  unfold user_after_syscall, bind at 1.
  destruct (num =? TARGET_NR_read).
  { unfold bind at 1. unfold_monad.
    destruct ((0 <? ret_) && (arg1 =? infd s)); simpl.
    - destruct (is_open (funclog s)); [ | discriminate ].
      intros H. injection H as <- <-. auto.
    - intros H. injection H as <- <-. auto. }
  destruct (num =? TARGET_NR_write).
  { unfold bind at 1. unfold_monad.
    destruct ((0 <? ret_) && (arg1 =? outfd s)); simpl.
    - destruct (is_open (funclog s)); [ | discriminate ].
      intros H. injection H as <- <-. auto.
    - intros H. injection H as <- <-. auto. }
  destruct (num =? TARGET_NR_open).
  { destruct (user_open_spec tbl ret_ p arg2 s) as (s1 & Hop & _ & Hm & Hb & _).
    unfold bind at 1. rewrite Hop. cbn [ret].
    intros H. injection H as <- <-. auto. }
  destruct (num =? TARGET_NR_openat).
  { destruct (user_open_spec tbl ret_ p arg3 s) as (s1 & Hop & _ & Hm & Hb & _).
    unfold bind at 1. rewrite Hop. cbn [ret].
    intros H. injection H as <- <-. auto. }
  destruct (num =? TARGET_NR_creat).
  { destruct (user_creat_spec ret_ p s) as (s1 & Hcr & _ & Hm & Hb & _).
    unfold bind at 1. rewrite Hcr. cbn [ret].
    intros H. injection H as <- <-. auto. }
  cbn [ret]. intros H. injection H as <- <-. auto.
Qed.

(** X10. The syscall callbacks never disturb the trace of dynamic
    values: over any interleaving of block signals and syscall returns
    that returns, the value log followed by the pending bytes grows by the
    records and markers of the block signals alone, in their order, as if
    no syscall had happened. *)
Theorem syscalls_do_not_disturb_the_trace env tbl evs : forall s s',
  exec (host_run env tbl evs) s = Some s' ->
  traced s' = (traced s ++ flat_map emitted (block_signals evs))%list.
Proof.
  induction evs as [|ev evs IH]; intros s s' H; unfold exec in H; simpl in H.
  - unfold ret in H. injection H as <-. now rewrite app_nil_r.
  - unfold bind at 1 in H.
    destruct (handle env tbl ev s) as [[u s1]|] eqn:Hh; [ | discriminate ].
    rewrite (IH s1 s') by (unfold exec; exact H).
    destruct ev as [sg|num a1 a2 a3 a4 a5 a6 a7 a8 p r]; simpl in Hh.
    + rewrite (deliver_traced env sg s u s1 Hh). cbn [block_signals flat_map].
      now rewrite <- app_assoc.
    + unfold bind in Hh.
      destruct (user_after_syscall env tbl num a1 a2 a3 a4 a5 a6 a7 a8 p r s)
        as [[z s2]|] eqn:Hs; [ | discriminate ].
      unfold ret in Hh. injection Hh as _ <-.
      destruct (user_after_syscall_keeps_the_trace
                  env tbl num a1 a2 a3 a4 a5 a6 a7 a8 p r s z s2 Hs)
        as (_ & Hm & Hb).
      cbn [block_signals]. unfold traced. now rewrite Hm, Hb.
Qed.

Lemma prefix_app lit t : prefix lit (lit ++ t) = true.
Proof.
  induction lit as [|c lit IH]; simpl.
  - destruct t; reflexivity.
  - destruct (ascii_dec c c) as [_|Hne]; [ exact IH | contradiction ].
Qed.

Lemma substring_skip a : forall n r,
  substring (String.length a) n (a ++ r) = substring 0 n r.
Proof.
  induction a as [|c a IH]; intros n r; simpl; [ reflexivity | apply IH ].
Qed.

Lemma substring_app_whole lit b :
  substring 0 (String.length lit) (lit ++ b) = lit.
Proof.
  induction lit as [|c lit IH]; simpl.
  - destruct b; reflexivity.
  - now rewrite IH.
Qed.

Lemma contains_app needle a b :
  needle <> "" -> contains needle (a ++ needle ++ b) = true.
Proof.
  intros Hne. apply contains_substring; [ exact Hne | ].
  exists (String.length a). rewrite substring_skip. apply substring_app_whole.
Qed.

Lemma strncmp_0 s1 s2 : CString.strncmp s1 s2 0 = 0.
Proof. destruct s1; reflexivity. Qed.

(** X11. The exclusion is textual: a path is not of interest as soon as
    it starts with the characters [/etc], [/lib], [/proc], [/dev] or
    [/usr], whatever follows them, and as soon as [openssl.cnf] or
    [xpdfrc] occurs anywhere in it. *)
Theorem exclusion_is_by_prefix_and_substring t a b :
  of_interest ("/etc" ++ t) = false
  /\ of_interest ("/lib" ++ t) = false
  /\ of_interest ("/proc" ++ t) = false
  /\ of_interest ("/dev" ++ t) = false
  /\ of_interest ("/usr" ++ t) = false
  /\ of_interest (a ++ "openssl.cnf" ++ b) = false
  /\ of_interest (a ++ "xpdfrc" ++ b) = false.
Proof.
  assert (Hssl : CString.strstr (a ++ "openssl.cnf" ++ b) "openssl.cnf" <> None).
  { assert (H : contains "openssl.cnf" (a ++ "openssl.cnf" ++ b) = true)
      by (apply contains_app; discriminate).
    unfold contains in H.
    destruct (CString.strstr (a ++ "openssl.cnf" ++ b) "openssl.cnf");
      [ discriminate | discriminate H ]. }
  assert (Hxpdf : CString.strstr (a ++ "xpdfrc" ++ b) "xpdfrc" <> None).
  { assert (H : contains "xpdfrc" (a ++ "xpdfrc" ++ b) = true)
      by (apply contains_app; discriminate).
    unfold contains in H.
    destruct (CString.strstr (a ++ "xpdfrc" ++ b) "xpdfrc");
      [ discriminate | discriminate H ]. }
  repeat split; unfold of_interest;
    try (cbn [CString.strncmp String.append Ascii.eqb Bool.eqb];
         rewrite strncmp_0; reflexivity).
  - destruct (CString.strstr (a ++ "openssl.cnf" ++ b) "openssl.cnf");
      [ | contradiction ].
    cbv iota. now rewrite andb_false_r.
  - destruct (CString.strstr (a ++ "xpdfrc" ++ b) "xpdfrc");
      [ | contradiction ].
    cbv iota. now rewrite andb_false_r.
Qed.

End Plugin.

(** ** The callbacks on concrete inputs

    The callbacks are evaluated for the sample trace format, with blocks
    identified by the name of their LLVM function, the identity as path
    translation and as flag translation, and the syscall numbers of the
    i386 target. *)

Arguments BeforeBlockExec {TranslationBlock} tb.
Arguments LogDynval {TranslationBlock} e.
Arguments AfterBlockExec {TranslationBlock} tb next_tb.
Arguments CpuRestoreState {TranslationBlock} tb.
Arguments Completed {TranslationBlock} next_tb.
Arguments Diverted {TranslationBlock}.
Arguments mkRun {TranslationBlock} block events ending.
Arguments is_completion {TranslationBlock} sg.
Arguments is_fault {TranslationBlock} sg.

Local Abbreviation name_of := (fun name : string => name).
Local Abbreviation before0 := (before_block_exec unit string name_of tt).
Local Abbreviation after0 := (after_block_exec unit string tt).
Local Abbreviation restore0 := (cb_cpu_restore_state (fmt := sample_format) unit string tt).
Local Abbreviation run0 := (run (fmt := sample_format) unit string name_of tt).
Local Abbreviation session0 := (session (fmt := sample_format) unit string name_of tt).
Local Abbreviation triggered0 trigger :=
  (flushes_triggered (fmt := sample_format) unit string name_of trigger tt).
Local Abbreviation syscall0 :=
  (user_after_syscall unit name_of sample_string_at unit
                      (fun (flagarg : Z) (_ : unit) => flagarg)
                      3 4 5 295 8 tt tt).
Local Abbreviation open0 :=
  (user_open name_of sample_string_at unit
             (fun (flagarg : Z) (_ : unit) => flagarg) tt).

(** The test of [user_open] on some paths: a prefix is enough to exclude,
    and [openssl.cnf] is excluded wherever it lies. *)
Lemma of_interest_examples :
  of_interest "/home/user/input.pdf" = true
  /\ of_interest "/etc/passwd" = false
  /\ of_interest "/etcetera/notes" = false
  /\ of_interest "/usr/lib/libc.so" = false
  /\ of_interest "/home/user/openssl.cnf" = false
  /\ of_interest "etc/passwd" = true.
Proof. repeat split; reflexivity. Qed.

Lemma sample_state_open : streams_open sample_state.
Proof. split; reflexivity. Defined.

(** C1 on a block that logs two values, entered with one record of an
    earlier block still in the buffer. *)
Lemma after_block_exec_flushes_the_unit_witness :
  exists s0 s1 s2,
    before0 "tcg-llvm-tb-0" sample_pending_state = Some (0, s0)
    /\ run0 (map LogDynval sample_events) s0 = Some (tt, s1)
    /\ after0 "tcg-llvm-tb-0" "tcg-llvm-tb-1" s1 = Some (0, s2)
    /\ contents (memlog s2)
       = (contents (memlog s0) ++ flat_map sample_encode sample_events)%list
    /\ cur_size (dynval_buffer s2) = 0%nat.
Proof.
  destruct (after_block_exec_flushes_the_unit
              (fmt := sample_format) unit string name_of tt
              "tcg-llvm-tb-0" "tcg-llvm-tb-1" sample_events
              sample_pending_state)
    as (s0 & s1 & s2 & Hbefore & Hrun & Hafter & _ & _ & _ & Hlog & Hcur).
  - split; reflexivity.
  - vm_compute. lia.
  - exists s0, s1, s2. repeat split; assumption.
Defined.

(** C2 as stated fails: after one logged value the fault callback returns
    with the value log still empty and twenty bytes in the buffer. *)
Lemma fault_callback_neither_flushes_nor_resets :
  exists s1 s2,
    run0 [LogDynval (mkEvent Address Load 4096)] sample_state = Some (tt, s1)
    /\ restore0 "tcg-llvm-tb-0" s1 = Some (0, s2)
    /\ contents (memlog s2) = []
    /\ contents (memlog s2)
       <> (sample_encode (mkEvent Address Load 4096)
             ++ sample_encode (mkEvent ExceptionMarker Load 0))%list
    /\ cur_size (dynval_buffer s2) = 20%nat
    /\ cur_size (dynval_buffer s2) <> 0%nat.
Proof.
  do 2 eexists. split; [ vm_compute; reflexivity | ].
  split; [ vm_compute; reflexivity | ].
  repeat split; try reflexivity; discriminate.
Defined.

(** C2 as the code has it, on a block that logs two values and faults. *)
Lemma fault_marker_is_flushed_by_the_next_block_witness :
  exists s2 s3,
    exec (run0 (BeforeBlockExec "tcg-llvm-tb-0"
                  :: map LogDynval sample_events
                  ++ [CpuRestoreState "tcg-llvm-tb-0"])) sample_state = Some s2
    /\ contents (memlog s2) = []
    /\ cur_size (dynval_buffer s2) = 30%nat
    /\ before0 "tcg-llvm-tb-1" s2 = Some (0, s3)
    /\ contents (memlog s3)
       = (flat_map sample_encode sample_events
            ++ sample_encode (mkEvent ExceptionMarker Load 0))%list
    /\ cur_size (dynval_buffer s3) = 0%nat.
Proof.
  destruct (fault_marker_is_flushed_by_the_next_block
              (fmt := sample_format) unit string name_of tt
              "tcg-llvm-tb-0" "tcg-llvm-tb-1" sample_events sample_state)
    as (s0 & s1 & s2 & s3 & Hb0 & Hrun & Hfault & Hm & _ & Hcur & _
        & Hbefore & Hw & Hcur3).
  - exact sample_state_open.
  - vm_compute. lia.
  - assert (Hm0 : writes (memlog s0) = []).
    { vm_compute in Hb0. injection Hb0 as <-. reflexivity. }
    exists s2, s3. unfold exec. cbn [run deliver]. unfold bind at 1.
    unfold bind at 1. rewrite Hb0. cbn [ret]. rewrite run_app, Hrun.
    cbn [run deliver]. unfold bind. rewrite Hfault. cbn [ret].
    unfold contents. rewrite Hm, Hw, Hm0.
    repeat split; try assumption; simpl; now rewrite ?app_nil_r.
Defined.

(** C3 on a state whose buffer holds one record. *)
Lemma before_block_exec_flushes_what_is_pending_witness :
  exists s',
    before0 "tcg-llvm-tb-1" sample_pending_state = Some (0, s')
    /\ writes (funclog s') = ["tcg-llvm-tb-1" ++ CString.nl]
    /\ writes (memlog s') = [sample_encode (mkEvent Address Load 4096)]
    /\ cur_size (dynval_buffer s') = 0%nat.
Proof.
  destruct (before_block_exec_flushes_what_is_pending
              unit string name_of tt "tcg-llvm-tb-1" sample_pending_state)
    as (s' & Hb & Hl & Hflush & _).
  - split; reflexivity.
  - destruct Hflush as [Hw Hcur]; [ vm_compute; lia | ].
    exists s'. repeat split; assumption.
Defined.

(** C9 on a state whose buffer holds one record. *)
Lemma before_block_exec_leaves_cursor_0_witness :
  exists s',
    before0 "tcg-llvm-tb-1" sample_pending_state = Some (0, s')
    /\ cur_size (dynval_buffer s') = 0%nat.
Proof.
  eexists. split.
  - vm_compute. reflexivity.
  - eapply (before_block_exec_leaves_cursor_0
              unit string name_of tt "tcg-llvm-tb-1" sample_pending_state 0).
    vm_compute. reflexivity.
Defined.



(** C4 as stated fails: a block that faults has its ledger entry, and
    neither a completion nor the fault has flushed anything. *)
Lemma diverted_block_has_a_ledger_entry_and_no_flush :
  exists s',
    exec (run0 [ BeforeBlockExec "tcg-llvm-tb-0";
                 CpuRestoreState "tcg-llvm-tb-0" ]) sample_state = Some s'
    /\ ledger_entries sample_state = 0%nat
    /\ ledger_entries s' = 1%nat
    /\ triggered0 is_completion
         [ BeforeBlockExec "tcg-llvm-tb-0"; CpuRestoreState "tcg-llvm-tb-0" ]
         sample_state = 0%nat
    /\ triggered0 is_fault
         [ BeforeBlockExec "tcg-llvm-tb-0"; CpuRestoreState "tcg-llvm-tb-0" ]
         sample_state = 0%nat
    /\ flushes s' = 0%nat
    /\ (ledger_entries s' - ledger_entries sample_state)%nat
       <> (triggered0 is_completion
             [ BeforeBlockExec "tcg-llvm-tb-0"; CpuRestoreState "tcg-llvm-tb-0" ]
             sample_state
           + triggered0 is_fault
               [ BeforeBlockExec "tcg-llvm-tb-0"; CpuRestoreState "tcg-llvm-tb-0" ]
               sample_state)%nat.
Proof.
  eexists. split; [ vm_compute; reflexivity | ].
  repeat split; try (vm_compute; reflexivity).
  vm_compute. discriminate.
Defined.

(** C4 as the code has it, on a session of three blocks, the second of
    which faults. *)
Lemma session_has_one_flush_per_ledger_entry_witness :
  exists s',
    session0 [ mkRun "tcg-llvm-tb-0" sample_events (Completed "tcg-llvm-tb-1");
               mkRun "tcg-llvm-tb-1" [mkEvent Address Load 4096] Diverted;
               mkRun "tcg-llvm-tb-2" [] (Completed "tcg-llvm-tb-0") ]
             sample_state = Some (tt, s')
    /\ ledger_entries s' = 3%nat
    /\ flushes s' = 3%nat.
Proof.
  destruct (session_has_one_flush_per_ledger_entry
              (fmt := sample_format) unit string name_of tt
              [ mkRun "tcg-llvm-tb-0" sample_events (Completed "tcg-llvm-tb-1");
                mkRun "tcg-llvm-tb-1" [mkEvent Address Load 4096] Diverted;
                mkRun "tcg-llvm-tb-2" [] (Completed "tcg-llvm-tb-0") ]
              sample_state)
    as (s' & Hs & _ & _ & Hl & Hf & _).
  - exact sample_state_open.
  - reflexivity.
  - repeat constructor; vm_compute; lia.
  - exists s'. repeat split; assumption.
Defined.

(** C8 on a state whose buffer holds one record. *)
Lemma uninit_plugin_flushes_before_closing_witness :
  exists s',
    uninit_plugin sample_pending_state = Some (tt, s')
    /\ contents (memlog s') = sample_encode (mkEvent Address Load 4096)
    /\ is_open (memlog s') = false
    /\ is_open (funclog s') = false.
Proof.
  destruct (uninit_plugin_flushes_before_closing sample_pending_state)
    as (s' & Hun & Hc & _ & Hm & Hf).
  - split; reflexivity.
  - exists s'. repeat split; assumption.
Defined.

(** C6 on the read of the scenario: 128 bytes returned at the address
    0x7fff0000 on the designated descriptor. *)
Lemma taint_line_iff_designated_descriptor_witness :
  exists s',
    syscall0 3 7 0 0 0 0 0 0 0 2147418112 128 (set_infd 7 sample_state)
    = Some (0, s')
    /\ writes (funclog s') = ["taint,read,2147418112,128" ++ CString.nl].
Proof.
  destruct (taint_line_iff_designated_descriptor
              unit name_of sample_string_at unit
              (fun (flagarg : Z) (_ : unit) => flagarg)
              3 4 5 295 8 tt tt 3 7 0 0 0 0 0 0 0 2147418112 128
              (set_infd 7 sample_state))
    as (s' & Hs & Hw).
  - reflexivity.
  - lia.
  - lia.
  - exists s'. split; [ exact Hs | ]. rewrite Hw. reflexivity.
Defined.

(** C7 as stated fails: a creat of [/etc/passwd], a path on the exclusion
    list, designates the returned descriptor as the taint sink. *)
Lemma creat_designates_an_excluded_path :
  excluded (name_of (sample_string_at 4096)) = true
  /\ outfd sample_state = -1
  /\ exists s',
       syscall0 8 4096 420 0 0 0 0 0 0 4096 5 sample_state = Some (0, s')
       /\ outfd s' = 5.
Proof.
  split; [ reflexivity | ]. split; [ reflexivity | ].
  eexists. split; [ vm_compute; reflexivity | reflexivity ].
Defined.

(** C10 on an open of [/home/user/input.pdf] with [O_RDWR]. *)
Lemma open_rdwr_designates_the_source_witness :
  exists s',
    open0 5 8192 O_RDWR sample_state = Some (0, s')
    /\ infd s' = 5
    /\ outfd s' = -1.
Proof.
  destruct (open_rdwr_designates_the_source
              name_of sample_string_at unit
              (fun (flagarg : Z) (_ : unit) => flagarg)
              tt 5 8192 O_RDWR sample_state)
    as (_ & s' & Hs & Hi & Ho).
  - lia.
  - reflexivity.
  - reflexivity.
  - exists s'. repeat split; assumption.
Defined.

(** C10 as stated fails for the successful open that returns the
    descriptor 0: nothing is designated. *)
Lemma open_rdwr_of_descriptor_0_designates_nothing :
  of_interest (name_of (sample_string_at 8192)) = true
  /\ Z.land (CInt.to_uint O_RDWR) O_ACCMODE = O_RDWR
  /\ infd sample_state = -1
  /\ exists s',
       open0 0 8192 O_RDWR sample_state = Some (0, s')
       /\ infd s' = -1
       /\ infd s' <> CInt.to_int 0.
Proof.
  repeat split; try reflexivity.
  eexists. split; [ vm_compute; reflexivity | ].
  split; [ reflexivity | vm_compute; discriminate ].
Defined.

(** ** The further properties on concrete inputs *)

Arguments emitted {fmt} {TranslationBlock} sg.
Arguments BlockSignal {TranslationBlock} sg.
Arguments SyscallReturn {TranslationBlock} num arg1 arg2 arg3 arg4 arg5 arg6 arg7 arg8 p ret_.

Local Abbreviation lifecycle0 :=
  (lifecycle (fmt := sample_format) unit string name_of tt).
Local Abbreviation creat0 := (user_creat name_of sample_string_at).
Local Abbreviation host_run0 :=
  (host_run (fmt := sample_format) unit string name_of name_of
            sample_string_at unit
            (fun (flagarg : Z) (_ : unit) => flagarg) 3 4 5 295 8 tt tt).

(** X1 on a run whose signals come in no regular order, entered with one
    record in the buffer. *)
Lemma run_loses_no_record_witness :
  exists s',
    exec (run0 [ LogDynval (mkEvent Value Store 7);
                 CpuRestoreState "tcg-llvm-tb-0";
                 BeforeBlockExec "tcg-llvm-tb-1";
                 LogDynval (mkEvent BranchTarget CompareAndFork 1) ])
         sample_pending_state = Some s'
    /\ traced s'
       = (traced sample_pending_state
            ++ flat_map (emitted (fmt := sample_format))
                 [ LogDynval (mkEvent Value Store 7);
                   CpuRestoreState "tcg-llvm-tb-0";
                   BeforeBlockExec "tcg-llvm-tb-1";
                   LogDynval (mkEvent BranchTarget CompareAndFork 1) ])%list.
Proof.
  eexists. split.
  - vm_compute. reflexivity.
  - eapply (run_loses_no_record (fmt := sample_format) unit string name_of tt).
    vm_compute. reflexivity.
Defined.

(** X2 on a life of the plugin with one block that faults and is never
    followed by another block. *)
Lemma lifecycle_value_log_witness :
  exists s',
    exec (lifecycle0 [ BeforeBlockExec "tcg-llvm-tb-0";
                       LogDynval (mkEvent Address Load 4096);
                       CpuRestoreState "tcg-llvm-tb-0" ])
         sample_state = Some s'
    /\ contents (memlog s')
       = (sample_encode (mkEvent Address Load 4096)
            ++ sample_encode (mkEvent ExceptionMarker Load 0))%list
    /\ is_open (memlog s') = false
    /\ is_open (funclog s') = false.
Proof.
  eexists. split.
  - vm_compute. reflexivity.
  - eapply (lifecycle_value_log (fmt := sample_format) unit string name_of tt
              [ BeforeBlockExec "tcg-llvm-tb-0";
                LogDynval (mkEvent Address Load 4096);
                CpuRestoreState "tcg-llvm-tb-0" ] sample_state).
    vm_compute. reflexivity.
Defined.

(** X3 on a run that fills the buffer to its last byte. *)
Lemma run_keeps_cursor_in_bounds_witness :
  exists s',
    exec (run0 [ LogDynval (mkEvent Value Store 7);
                 LogDynval (mkEvent Value Store 8);
                 CpuRestoreState "tcg-llvm-tb-0" ])
         sample_pending_state = Some s'
    /\ capacity (dynval_buffer s') = 40%nat
    /\ buffer_ok (dynval_buffer s').
Proof.
  eexists. split.
  - vm_compute. reflexivity.
  - eapply (run_keeps_cursor_in_bounds
              (fmt := sample_format) unit string name_of tt
              [ LogDynval (mkEvent Value Store 7);
                LogDynval (mkEvent Value Store 8);
                CpuRestoreState "tcg-llvm-tb-0" ] sample_pending_state).
    + vm_compute. reflexivity.
    + unfold buffer_ok. vm_compute. lia.
Defined.

(** X4 on a block run while descriptor 7 is the taint source. *)
Lemma run_keeps_descriptors_witness :
  exists s',
    exec (run0 [ BeforeBlockExec "tcg-llvm-tb-0";
                 LogDynval (mkEvent Address Load 4096);
                 AfterBlockExec "tcg-llvm-tb-0" "tcg-llvm-tb-1" ])
         (set_infd 7 sample_state) = Some s'
    /\ infd s' = 7
    /\ outfd s' = -1.
Proof.
  eexists. split.
  - vm_compute. reflexivity.
  - eapply (run_keeps_descriptors
              (fmt := sample_format) unit string name_of tt
              [ BeforeBlockExec "tcg-llvm-tb-0";
                LogDynval (mkEvent Address Load 4096);
                AfterBlockExec "tcg-llvm-tb-0" "tcg-llvm-tb-1" ]
              (set_infd 7 sample_state)).
    vm_compute. reflexivity.
Defined.

(** X5 on a state whose buffer holds one record. *)
Lemma flush_after_completion_adds_nothing_witness :
  exists s1 s2 s3,
    after0 "tcg-llvm-tb-0" "tcg-llvm-tb-1" sample_pending_state = Some (0, s1)
    /\ before0 "tcg-llvm-tb-1" s1 = Some (0, s2)
    /\ memlog s2 = memlog s1
    /\ after0 "tcg-llvm-tb-0" "tcg-llvm-tb-1" s1 = Some (0, s3)
    /\ contents (memlog s3) = contents (memlog s1)
    /\ flushes s3 = S (flushes s1).
Proof.
  apply (flush_after_completion_adds_nothing
           unit string name_of tt "tcg-llvm-tb-0" "tcg-llvm-tb-1"
           "tcg-llvm-tb-1" sample_pending_state).
  split; reflexivity.
Defined.

(** X6 on an open that failed and on an open of [/etc/passwd]. *)
Lemma user_open_ignores_failed_and_excluded_witness :
  open0 (-2) 8192 O_RDONLY sample_state = Some (0, sample_state)
  /\ open0 5 4096 O_RDONLY sample_state = Some (0, sample_state).
Proof.
  split.
  - apply (user_open_ignores_failed_and_excluded
             name_of sample_string_at unit
             (fun (flagarg : Z) (_ : unit) => flagarg)
             tt (-2) 8192 O_RDONLY sample_state).
    left. lia.
  - apply (user_open_ignores_failed_and_excluded
             name_of sample_string_at unit
             (fun (flagarg : Z) (_ : unit) => flagarg)
             tt 5 4096 O_RDONLY sample_state).
    right. reflexivity.
Defined.

(** X7 on an open of [/home/user/input.pdf] that replaces the designated
    descriptor 7 by 5: a read on 5 is tainted, a read on 7 is not. *)
Lemma read_after_open_is_tainted_witness :
  exists s1 s2 s3,
    open0 5 8192 O_RDONLY (set_infd 7 sample_state) = Some (0, s1)
    /\ user_read 128 5 2147418112 s1 = Some (0, s2)
    /\ writes (funclog s2) = [taint_line "read" 2147418112 128]
    /\ user_read 128 7 2147418112 s1 = Some (0, s3)
    /\ writes (funclog s3) = [].
Proof.
  destruct (read_after_open_is_tainted
              name_of sample_string_at unit
              (fun (flagarg : Z) (_ : unit) => flagarg)
              tt 5 8192 O_RDONLY (set_infd 7 sample_state))
    as (s1 & Hop & Hread).
  - reflexivity.
  - lia.
  - reflexivity.
  - reflexivity.
  - destruct (Hread 128 5 2147418112) as (s2 & Hr2 & Hw2); [ lia | ].
    destruct (Hread 128 7 2147418112) as (s3 & Hr3 & Hw3); [ lia | ].
    exists s1, s2, s3. repeat split; assumption.
Defined.

(** X8 on a creat of [/etc/passwd] that returns 6. *)
Lemma write_after_creat_is_tainted_witness :
  exists s1 s2 s3,
    creat0 6 4096 sample_state = Some (0, s1)
    /\ user_write 64 6 2147418112 s1 = Some (0, s2)
    /\ writes (funclog s2) = [taint_line "write" 2147418112 64]
    /\ user_write 64 1 2147418112 s1 = Some (0, s3)
    /\ writes (funclog s3) = [].
Proof.
  destruct (write_after_creat_is_tainted
              name_of sample_string_at 6 4096 sample_state)
    as (s1 & Hcr & Hwrite).
  - reflexivity.
  - lia.
  - destruct (Hwrite 64 6 2147418112) as (s2 & Hr2 & Hw2); [ lia | ].
    destruct (Hwrite 64 1 2147418112) as (s3 & Hr3 & Hw3); [ lia | ].
    exists s1, s2, s3. repeat split; assumption.
Defined.

(** X9 on an open of [/home/user/input.pdf] for writing. *)
Lemma user_open_reports_one_direction_witness :
  exists s',
    open0 5 8192 O_WRONLY sample_state = Some (0, s')
    /\ stdout s'
       = [ "open /home/user/input.pdf for "; ("write" ++ CString.nl)%string ].
Proof.
  destruct (user_open_reports_one_direction
              name_of sample_string_at unit
              (fun (flagarg : Z) (_ : unit) => flagarg)
              tt 5 8192 O_WRONLY sample_state)
    as (s' & Hop & Hout).
  - lia.
  - reflexivity.
  - exists s'. split; [ exact Hop | ]. rewrite Hout. reflexivity.
Defined.

(** X10 on a block during which a read is tainted and a file is opened. *)
Lemma syscalls_do_not_disturb_the_trace_witness :
  exists s',
    exec (host_run0
            [ BlockSignal (BeforeBlockExec "tcg-llvm-tb-0");
              SyscallReturn 3 7 0 0 0 0 0 0 0 2147418112 128;
              BlockSignal (LogDynval (mkEvent Address Load 4096));
              SyscallReturn 5 8192 0 0 0 0 0 0 0 8192 5;
              BlockSignal (AfterBlockExec "tcg-llvm-tb-0" "tcg-llvm-tb-1") ])
         (set_infd 7 sample_state) = Some s'
    /\ writes (funclog s')
       = [ ("tcg-llvm-tb-0" ++ CString.nl)%string;
           taint_line "read" 2147418112 128 ]
    /\ infd s' = 5
    /\ traced s' = sample_encode (mkEvent Address Load 4096).
Proof.
  eexists. split; [ vm_compute; reflexivity | ].
  split; [ reflexivity | ]. split; [ reflexivity | ].
  refine (syscalls_do_not_disturb_the_trace
            (fmt := sample_format) unit string name_of name_of
            sample_string_at unit
            (fun (flagarg : Z) (_ : unit) => flagarg) 3 4 5 295 8 tt tt
            [ BlockSignal (BeforeBlockExec "tcg-llvm-tb-0");
              SyscallReturn 3 7 0 0 0 0 0 0 0 2147418112 128;
              BlockSignal (LogDynval (mkEvent Address Load 4096));
              SyscallReturn 5 8192 0 0 0 0 0 0 0 8192 5;
              BlockSignal (AfterBlockExec "tcg-llvm-tb-0" "tcg-llvm-tb-1") ]
            (set_infd 7 sample_state) _ _).
  vm_compute. reflexivity.
Defined.
